(** * OfficeToPDF: the job supervisor and the process runner

    A shallow embedding of [app/converter.py], [app/queue.py] and the two
    conversion endpoints of [app/main.py], followed by the properties of
    the queue, the retry loop, the process runner and the record sweeps.

    Conventions.
    - Python [int] is [Z]; [len] is [length] (a [nat]); clock readings
      ([loop.time()], [time.time()]) are rationals [Q], so float rounding
      is not part of the model.
    - [str] is [string] (a sequence of bytes); [str.lower] and [str.strip]
      act on the ASCII range.
    - A [Job] object lives in a heap and is named by its location, so that
      the registry, the pending list and a running coroutine all see the
      same object.
    - A coroutine is run to completion: interleaving at [await] is not
      modelled.  What the outside world decides (the converter process,
      the signals, the directory listing) is an oracle given as input.
    - The endpoints and the runner are given twice: from the point where
      the upload is saved, resp. the process is started, and together with
      the outcome of that step, which can raise. *)

From Stdlib Require Import ZArith QArith String Ascii List Lia.
From stdpp Require Import base option list list_numbers gmap strings pretty fin_maps.

Local Open Scope string_scope.
Local Open Scope list_scope.
Local Open Scope Z_scope.

(* ===================================================================== *)
(** * Python values shared by all modules *)
(* ===================================================================== *)

(** The subclasses of [Exception] that the code distinguishes.  [str e] is
    Python's [str(e)]. *)
Inductive Exception : Type :=
| RuntimeError (msg : string)
| ProcessLookupError (msg : string)
| HTTPException (status_code : Z) (detail : string)
| OtherError (cls msg : string).

Definition str (e : Exception) : string :=
  match e with
  | RuntimeError msg => msg
  | ProcessLookupError msg => msg
  | HTTPException _ detail => detail
  | OtherError _ msg => msg
  end.

(** The outcome of a call: a value, or a raised exception. *)
Inductive result (A : Type) : Type :=
| Ok (a : A)
| Raise (e : Exception).
Arguments Ok {A} a.
Arguments Raise {A} e.

(** Truth value of an [int] and of a [str]; [a or b] on strings. *)
Definition truthy (z : Z) : bool := negb (z =? 0).

Definition str_or (a b : string) : string :=
  match a with
  | EmptyString => b
  | _ => a
  end.

(* ===================================================================== *)
(** * String and path functions of the Python library *)
(* ===================================================================== *)

Module Py.

(** [name.startswith(base)] *)
Definition startswith (base name : string) : bool := String.prefix base name.

(** [s\[i:\]] for [0 <= i] *)
Definition drop (i : nat) (s : string) : string :=
  String.substring i (String.length s - i) s.

(** [s\[:i\]] for [0 <= i] *)
Definition take (i : nat) (s : string) : string := String.substring 0 i s.

(** [s.endswith(suffix)] *)
Definition endswith (suffix s : string) : bool :=
  (String.length suffix <=? String.length s)%nat &&
  String.eqb (drop (String.length s - String.length suffix) s) suffix.

Definition lower_ascii (c : ascii) : ascii :=
  let n := nat_of_ascii c in
  if ((65 <=? n) && (n <=? 90))%nat then ascii_of_nat (n + 32) else c.

(** [s.lower()] *)
Fixpoint lower (s : string) : string :=
  match s with
  | EmptyString => EmptyString
  | String c s' => String (lower_ascii c) (lower s')
  end.

(** [s.rfind(c)], with [None] for Python's [-1] *)
Fixpoint rfind (c : ascii) (s : string) : option nat :=
  match s with
  | EmptyString => None
  | String a s' =>
      match rfind c s' with
      | Some i => Some (S i)
      | None => if Ascii.eqb a c then Some 0%nat else None
      end
  end.

Definition is_space (c : ascii) : bool :=
  let n := nat_of_ascii c in
  ((9 <=? n) && (n <=? 13) || (28 <=? n) && (n <=? 32))%nat.

Fixpoint lstrip (s : string) : string :=
  match s with
  | EmptyString => EmptyString
  | String c s' => if is_space c then lstrip s' else s
  end.

Fixpoint rstrip (s : string) : string :=
  match s with
  | EmptyString => EmptyString
  | String c s' =>
      match rstrip s' with
      | EmptyString => if is_space c then EmptyString else String c EmptyString
      | r => String c r
      end
  end.

(** [s.strip()] *)
Definition strip (s : string) : string := rstrip (lstrip s).

(** [posixpath.basename]: what follows the last slash. *)
Definition basename (p : string) : string :=
  match rfind "/" p with
  | Some i => drop (S i) p
  | None => p
  end.

Fixpoint all_dots (s : string) : bool :=
  match s with
  | EmptyString => true
  | String c s' => Ascii.eqb c "." && all_dots s'
  end.

(** [posixpath.splitext]: split at the last dot when that dot comes after
    the last slash and some character between the slash and the dot is
    not a dot. *)
Definition splitext (p : string) : string * string :=
  let filenameIndex := match rfind "/" p with Some i => S i | None => 0%nat end in
  match rfind "." p with
  | Some dotIndex =>
      if (filenameIndex <=? dotIndex)%nat &&
         negb (all_dots (String.substring filenameIndex (dotIndex - filenameIndex) p))
      then (take dotIndex p, drop dotIndex p)
      else (p, EmptyString)
  | None => (p, EmptyString)
  end.

(** [posixpath.join(a, b)] *)
Definition join (a b : string) : string :=
  if startswith "/" b then b
  else if String.eqb a "" || endswith "/" a then a +:+ b
  else a +:+ "/" +:+ b.

(** [posixpath.isabs] *)
Definition isabs (p : string) : bool := startswith "/" p.

End Py.

(* ===================================================================== *)
(** * app/converter.py *)
(* ===================================================================== *)

Module Converter.

Inductive Signal : Type := SIGTERM | SIGKILL.

(** What the runner asks of the operating system, in order. *)
Inductive Action : Type :=
| Makedirs (path : string)
| Spawn (args : list string)
| Communicate (timeout : Z)
| Getpgid
| Killpg (pgid : Z) (sig : Signal)
| Terminate
| Kill
| Wait (timeout : Z)
| Rmtree (path : string)
| Listdir (path : string).

(** [await asyncio.wait_for(proc.communicate(), timeout=CONVERT_TIMEOUT)] *)
Inductive CommunicateOutcome : Type :=
| Exited (returncode : Z) (stdout_text stderr_text : string)
| TimeoutError.

(** The answers of the operating system during one invocation. *)
Record OS : Type := mkOS {
  as_uri : string -> string;        (* Path(p).resolve().as_uri() *)
  communicate : CommunicateOutcome;
  getpgid : result Z;               (* os.getpgid(proc.pid) *)
  has_killpg : bool;                (* hasattr(os, "killpg") *)
  send_SIGTERM : result unit;       (* os.killpg(pgid, SIGTERM) or proc.terminate() *)
  wait_after_SIGTERM : bool;        (* proc.wait() returned within 5 s *)
  send_SIGKILL : result unit;       (* os.killpg(pgid, SIGKILL) or proc.kill() *)
  wait_after_SIGKILL : bool;        (* proc.wait() returned within 3 s *)
  listdir : list string;            (* os.listdir(output_dir) *)
}.

(** A computation that logs its actions and may raise. *)
Definition Act (A : Type) : Type := list Action * result A.

#[global] Instance Act_ret : MRet Act := fun A a => ([], Ok a).
#[global] Instance Act_bind : MBind Act := fun A B f m =>
  match m with
  | (t, Ok a) => let '(t', r) := f a in (t ++ t', r)
  | (t, Raise e) => (t, Raise e)
  end.

Definition act (a : Action) : Act unit := ([a], Ok tt).
Definition throw {A} (e : Exception) : Act A := ([], Raise e).
Definition answer {A} (r : result A) : Act A := ([], r).

(** [with contextlib.suppress(ProcessLookupError): body] *)
Definition suppress_ProcessLookupError (body : Act unit) : Act unit :=
  match body with
  | (t, Raise (ProcessLookupError _)) => (t, Ok tt)
  | _ => body
  end.

(** [try: body finally: cleanup], for a cleanup that cannot raise. *)
Definition finally {A} (body : Act A) (cleanup : Action) : Act A :=
  (fst body ++ [cleanup], snd body).

Definition _find_output_pdf (input_path output_dir : string) (names : list string)
  : option string :=
  let base := fst (Py.splitext (Py.basename input_path)) in
  let matching name :=
    Py.startswith base name && Py.endswith ".pdf" (Py.lower name) in
  match List.find matching names with
  | Some name => Some (Py.join output_dir name)
  | None => None
  end.

(** The signal of one escalation step: to the group when [pgid] is known
    and [os.killpg] exists, to the process alone otherwise. *)
Definition signal_step (pgid : option Z) (os : OS) (sig : Signal) (outcome : result unit)
  : Act unit :=
  suppress_ProcessLookupError
    (match pgid with
     | Some p =>
         if truthy p && has_killpg os
         then act (Killpg p sig);; answer outcome
         else act (match sig with SIGTERM => Terminate | SIGKILL => Kill end);;
              answer outcome
     | None =>
         act (match sig with SIGTERM => Terminate | SIGKILL => Kill end);;
         answer outcome
     end).

(** The [except asyncio.TimeoutError] branch. *)
Definition on_timeout {A} (os : OS) : Act A :=
  act Getpgid;;
  let pgid := match getpgid os with Ok p => Some p | Raise _ => None end in
  signal_step pgid os SIGTERM (send_SIGTERM os);;
  act (Wait 5);;
  (if wait_after_SIGTERM os then mret tt
   else signal_step pgid os SIGKILL (send_SIGKILL os);;
        act (Wait 3));;
  throw (RuntimeError "Conversion timed out").

Definition soffice_args (os : OS) (profile_dir input_path output_dir : string)
  (convert_to : option string) : list string :=
  [ "soffice"; "--headless";
    "-env:UserInstallation=" +:+ as_uri os profile_dir;
    "--norestore"; "--nodefault"; "--nolockcheck"; "--nofirststartwizard";
    "--convert-to";
    match convert_to with
    | Some fmt => str_or fmt "pdf"
    | None => "pdf"
    end;
    "--outdir"; output_dir; input_path ].

(** The runner for a process that [asyncio.create_subprocess_exec]
    started; [run_libreoffice_convert_spawning] adds the case of the start
    raising. *)
Definition run_libreoffice_convert (CONVERT_TIMEOUT : Z)
  (input_path output_dir : string) (convert_to : option string) (os : OS) : Act string :=
  act (Makedirs output_dir);;
  let profile_dir := Py.join output_dir "lo_profile" in
  act (Makedirs profile_dir);;
  act (Spawn (soffice_args os profile_dir input_path output_dir convert_to));;
  '(returncode, stdout_text, stderr_text) ←
    finally
      (act (Communicate CONVERT_TIMEOUT);;
       match communicate os with
       | Exited returncode stdout_text stderr_text =>
           mret (returncode, stdout_text, stderr_text)
       | TimeoutError => on_timeout os
       end)
      (Rmtree profile_dir);
  if negb (returncode =? 0) then
    let details := Py.strip (str_or stderr_text (str_or stdout_text "Unknown error")) in
    throw (RuntimeError ("LibreOffice failed (code " +:+ pretty returncode +:+ "): " +:+ details))
  else
    act (Listdir output_dir);;
    match _find_output_pdf input_path output_dir (listdir os) with
    | None =>
        let details :=
          Py.strip (str_or stderr_text (str_or stdout_text "No output produced")) in
        throw (RuntimeError ("Output file not created: " +:+ details))
    | Some out => mret out
    end.

End Converter.

(* ===================================================================== *)
(** * app/models.py and app/config.py *)
(* ===================================================================== *)

Module JobStatus.
Inductive t : Type := queued | running | done | failed | cleaned.

#[global] Instance eq_dec : EqDecision t.
Proof. solve_decision. Defined.

Definition eqb (a b : t) : bool := bool_decide (a = b).
End JobStatus.

Record ConvertResponse : Type := mkConvertResponse {
  resp_job_id : string;
  resp_status : JobStatus.t;
  resp_download_url : option string;
}.

(** The configuration read from the environment by [config.py]. *)
Record Config : Type := mkConfig {
  DATA_DIR : string;
  CONVERT_TIMEOUT : Z;
  CLEANUP_AFTER_SECONDS : Z;
  MAX_RETRIES : Z;
  MAX_QUEUE_SIZE : Z;
  JOB_RECORD_TTL_SECONDS : Z;
}.

Definition default_config : Config :=
  {| DATA_DIR := "/tmp/o2pdata";
     CONVERT_TIMEOUT := 600;
     CLEANUP_AFTER_SECONDS := 3600;
     MAX_RETRIES := 2;
     MAX_QUEUE_SIZE := 1000;
     JOB_RECORD_TTL_SECONDS := 86400 |}.

(* ===================================================================== *)
(** * app/queue.py: the [Job] dataclass *)
(* ===================================================================== *)

Module Job.

Record t : Type := mk {
  id : string;
  infile_path : string;
  outdir : string;
  convert_to : option string;
  status : JobStatus.t;
  message : option string;
  outfile_path : option string;
  retries : Z;
  max_retries : Z;
  finished_at : option Q;
}.

(** Attribute assignments. *)
Definition set_infile_path (v : string) (j : t) : t :=
  mk (id j) v (outdir j) (convert_to j) (status j) (message j) (outfile_path j)
     (retries j) (max_retries j) (finished_at j).
Definition set_status (v : JobStatus.t) (j : t) : t :=
  mk (id j) (infile_path j) (outdir j) (convert_to j) v (message j) (outfile_path j)
     (retries j) (max_retries j) (finished_at j).
Definition set_message (v : option string) (j : t) : t :=
  mk (id j) (infile_path j) (outdir j) (convert_to j) (status j) v (outfile_path j)
     (retries j) (max_retries j) (finished_at j).
Definition set_outfile_path (v : option string) (j : t) : t :=
  mk (id j) (infile_path j) (outdir j) (convert_to j) (status j) (message j) v
     (retries j) (max_retries j) (finished_at j).
Definition set_retries (v : Z) (j : t) : t :=
  mk (id j) (infile_path j) (outdir j) (convert_to j) (status j) (message j)
     (outfile_path j) v (max_retries j) (finished_at j).
Definition set_finished_at (v : option Q) (j : t) : t :=
  mk (id j) (infile_path j) (outdir j) (convert_to j) (status j) (message j)
     (outfile_path j) (retries j) (max_retries j) v.

(** The object a dangling reference would denote; never reached. *)
Definition blank : t :=
  mk "" "" "" None JobStatus.queued None None 0 0 None.

End Job.

(* ===================================================================== *)
(** * The object store and the queue's state *)
(* ===================================================================== *)

(** A reference to a [Job] object. *)
Definition loc : Type := nat.

(** What an observer of the queue can see happen, in order. *)
Inductive Event : Type :=
| EvAcquire (job : loc)                               (* gate slot taken *)
| EvRelease (job : loc)                               (* gate slot given back *)
| EvStatus (job : loc) (old new : JobStatus.t)        (* job.status = new *)
| EvRetries (job : loc) (old new : Z)                 (* job.retries = new *)
| EvRunner (job : loc) (seen : Job.t) (outcome : result string)
                                                      (* await runner(job) *)
| EvSleep.                                            (* await asyncio.sleep(0.2) *)

(** The memory: the [Job] objects, the fields of the [ConvertQueue]
    singleton, the coroutines scheduled and not yet started, and the
    events so far. *)
Record Mem : Type := mkMem {
  heap : loc -> Job.t;
  next_loc : loc;
  jobs : gmap string loc;       (* self.jobs *)
  pending : list string;        (* self.pending *)
  tasks : list loc;             (* run_job coroutines handed to the loop *)
  log : list Event;
}.

Definition empty_mem : Mem :=
  mkMem (fun _ => Job.blank) 0%nat ∅ [] [] [].

Definition upd (job : loc) (f : Job.t -> Job.t) (m : Mem) : Mem :=
  mkMem (fun l => if decide (l = job) then f (heap m l) else heap m l)
        (next_loc m) (jobs m) (pending m) (tasks m) (log m).

Definition emit (e : Event) (m : Mem) : Mem :=
  mkMem (heap m) (next_loc m) (jobs m) (pending m) (tasks m) (log m ++ [e]).

Definition set_jobs (js : gmap string loc) (m : Mem) : Mem :=
  mkMem (heap m) (next_loc m) js (pending m) (tasks m) (log m).

Definition set_pending (p : list string) (m : Mem) : Mem :=
  mkMem (heap m) (next_loc m) (jobs m) p (tasks m) (log m).

Definition set_tasks (ts : list loc) (m : Mem) : Mem :=
  mkMem (heap m) (next_loc m) (jobs m) (pending m) ts (log m).

(** [job.status = v], [job.retries = v] and the silent assignments. *)
Definition set_status (job : loc) (v : JobStatus.t) (m : Mem) : Mem :=
  emit (EvStatus job (Job.status (heap m job)) v) (upd job (Job.set_status v) m).

Definition set_retries (job : loc) (v : Z) (m : Mem) : Mem :=
  emit (EvRetries job (Job.retries (heap m job)) v) (upd job (Job.set_retries v) m).

Definition set_message (job : loc) (v : option string) (m : Mem) : Mem :=
  upd job (Job.set_message v) m.

Definition set_outfile_path (job : loc) (v : option string) (m : Mem) : Mem :=
  upd job (Job.set_outfile_path v) m.

Definition set_finished_at (job : loc) (v : option Q) (m : Mem) : Mem :=
  upd job (Job.set_finished_at v) m.

Definition set_infile_path (job : loc) (v : string) (m : Mem) : Mem :=
  upd job (Job.set_infile_path v) m.

(** [l.remove(x)]: drops the first occurrence; [None] is [ValueError]. *)
Fixpoint list_remove (x : string) (l : list string) : option (list string) :=
  match l with
  | [] => None
  | y :: l' =>
      if decide (y = x) then Some l'
      else match list_remove x l' with
           | Some r => Some (y :: r)
           | None => None
           end
  end.

(** The statements
    [if job_id in self.pending: try: self.pending.remove(job_id) except ValueError: pass] *)
Definition drop_pending (job_id : string) (m : Mem) : Mem :=
  if bool_decide (job_id ∈ pending m) then
    match list_remove job_id (pending m) with
    | Some p => set_pending p m
    | None => m
    end
  else m.

(** Comparisons of clock readings. *)
Definition Qlt_bool (a b : Q) : bool := negb (Qle_bool b a).

(** [t or now] for an optional float [t]: [None] and [0.0] are false. *)
Definition float_or (t : option Q) (now : Q) : Q :=
  match t with
  | Some v => if Qeq_bool v 0 then now else v
  | None => now
  end.

(* ===================================================================== *)
(** * app/queue.py: the methods of [ConvertQueue] that do not await *)
(* ===================================================================== *)

Module Counters.
Record t : Type := mk {
  total : nat;
  queue_len : nat;
  running : nat;
  done : nat;
  failed : nat;
}.
End Counters.

Module ConvertQueue.

(** [uuid4] is the identifier [uuid.uuid4()] returns in this call. *)
Definition create_job (cfg : Config) (uuid4 infile_path : string)
  (convert_to : option string) (m : Mem) : loc * Mem :=
  let job_id := uuid4 in
  let outdir := Py.join (DATA_DIR cfg) job_id in
  let job :=
    Job.mk job_id infile_path outdir convert_to JobStatus.queued None None 0
           (MAX_RETRIES cfg) None in
  let l := next_loc m in
  (l, mkMem (fun l' => if decide (l' = l) then job else heap m l')
            (S l) (<[job_id := l]> (jobs m)) (pending m) (tasks m) (log m)).

Definition get (job_id : string) (m : Mem) : option loc := jobs m !! job_id.

Definition enqueue (cfg : Config) (job : loc) (m : Mem) : Mem :=
  if truthy (MAX_QUEUE_SIZE cfg) &&
     (MAX_QUEUE_SIZE cfg <=? Z.of_nat (length (pending m)))
  then
    let m := set_status job JobStatus.failed m in
    set_message job (Some "Queue is full") m
  else if negb (bool_decide (Job.id (heap m job) ∈ pending m)) then
    let m := set_pending (pending m ++ [Job.id (heap m job)]) m in
    set_status job JobStatus.queued m
  else m.

Fixpoint index (x : string) (l : list string) : option nat :=
  match l with
  | [] => None
  | y :: l' => if decide (y = x) then Some 0%nat else S <$> index x l'
  end.

Definition waiting_count (job_id : string) (m : Mem) : option nat :=
  index job_id (pending m).

(** [self.jobs.values()] *)
Definition values (m : Mem) : list Job.t :=
  (fun kv : string * loc => heap m kv.2) <$> map_to_list (jobs m).

Definition with_status (s : JobStatus.t) (js : list Job.t) : list Job.t :=
  List.filter (fun j => JobStatus.eqb (Job.status j) s) js.

Definition counters (m : Mem) : Counters.t :=
  let total := size (jobs m) in
  let queue_len := length (with_status JobStatus.queued (values m)) in
  let running := length (with_status JobStatus.running (values m)) in
  let done := length (with_status JobStatus.done (values m)) in
  let failed := length (with_status JobStatus.failed (values m)) in
  Counters.mk total queue_len running done failed.

(** [now] is the reading of the loop clock, used when [finished_at] is
    unset.  [shutil.rmtree(..., ignore_errors=True)] touches no field. *)
Definition cleanup_job (now : Q) (job_id : string) (m : Mem) : Mem :=
  match jobs m !! job_id with
  | None => m
  | Some job =>
      let m := set_outfile_path job None m in
      let m := set_status job JobStatus.cleaned m in
      let m := set_message job (Some "Cleaned up after retention period") m in
      let m :=
        set_finished_at job (Some (float_or (Job.finished_at (heap m job)) now)) m in
      drop_pending job_id m
  end.

Definition is_terminal (s : JobStatus.t) : bool :=
  match s with
  | JobStatus.done | JobStatus.failed | JobStatus.cleaned => true
  | _ => false
  end.

(** The test of the first loop of [evict_old_jobs]. *)
Definition expired (cfg : Config) (now : Q) (job : Job.t) : bool :=
  is_terminal (Job.status job) &&
  match Job.finished_at job with
  | Some t => Qlt_bool (inject_Z (JOB_RECORD_TTL_SECONDS cfg)) (now - t)
  | None => false
  end.

Definition evict_old_jobs (cfg : Config) (now : Q) (m : Mem) : Mem :=
  if JOB_RECORD_TTL_SECONDS cfg <=? 0 then m
  else
    let to_delete :=
      fst <$> List.filter (fun kv : string * loc => expired cfg now (heap m kv.2))
                          (map_to_list (jobs m)) in
    set_jobs (foldl (fun js jid => delete jid js) (jobs m) to_delete) m.

End ConvertQueue.

(* ===================================================================== *)
(** * Coroutines: state, the outside world, and exceptions *)
(* ===================================================================== *)

Section Coroutines.

(** [W] is the state of the world outside the interpreter. *)
Context {W : Type}.

Definition M (A : Type) : Type := Mem -> W -> result A * Mem * W.

#[global] Instance M_ret : MRet M := fun A a m w => (Ok a, m, w).
#[global] Instance M_bind : MBind M := fun A B f c m w =>
  match c m w with
  | (Ok a, m', w') => f a m' w'
  | (Raise e, m', w') => (Raise e, m', w')
  end.

Definition raise {A} (e : Exception) : M A := fun m w => (Raise e, m, w).
Definition step (f : Mem -> Mem) : M unit := fun m w => (Ok tt, f m, w).
Definition read {A} (f : Mem -> A) : M A := fun m w => (Ok (f m), m, w).

(** [try: body except Exception as e: handler e] *)
Definition try_except {A} (body : M A) (handler : Exception -> M A) : M A :=
  fun m w =>
    match body m w with
    | (Raise e, m', w') => handler e m' w'
    | r => r
    end.

(** [async with self.sem: body], from the moment the slot is granted. *)
Definition with_sem {A} (job : loc) (body : M A) : M A :=
  fun m w =>
    let '(r, m', w') := body (emit (EvAcquire job) m) w in
    (r, emit (EvRelease job) m', w').

(** The runner reads the job it is given and acts on the world. *)
Variable runner : Job.t -> W -> result string * W.

(** [asyncio.get_event_loop().time()] *)
Variable loop_time : W -> Q.

Definition time : M Q := fun m w => (Ok (loop_time w), m, w).

Definition _run_once (job : loc) : M string :=
  fun m w =>
    let seen := heap m job in
    let '(r, w') := runner seen w in
    (r, emit (EvRunner job seen r) m, w').

(** The body of [for attempt in attempts], then the final [raise]. *)
Fixpoint attempt_loop (job : loc) (attempts : list Z) (last_err : option Exception)
  : M string :=
  match attempts with
  | [] =>
      raise (match last_err with
             | Some e => e
             | None => RuntimeError "Unknown conversion failure"
             end)
  | attempt :: rest =>
      step (set_retries job attempt);;
      try_except (_run_once job)
        (fun e => step (emit EvSleep);; attempt_loop job rest (Some e))
  end.

Definition _attempt_with_retries (job : loc) : M string :=
  max_retries ← read (fun m => Job.max_retries (heap m job));
  attempt_loop job (seqZ 0 (max_retries + 1)) None.

Definition run_job (job : loc) : M unit :=
  with_sem job
    (job_id ← read (fun m => Job.id (heap m job));
     step (drop_pending job_id);;
     step (set_status job JobStatus.running);;
     try_except
       (out ← _attempt_with_retries job;
        step (set_outfile_path job (Some out));;
        step (set_status job JobStatus.done);;
        now ← time;
        step (set_finished_at job (Some now)))
       (fun e =>
          step (set_status job JobStatus.failed);;
          step (set_message job (Some (str e)));;
          now ← time;
          step (set_finished_at job (Some now)))).

(** ** app/main.py: the two conversion endpoints *)

Variable cfg : Config.

(** [filename] is [file.filename]; saving the upload touches no field.
    These are the endpoints for an upload that was saved;
    [convert_sync_saving] and [convert_async_saving] add the case of
    [save_upload_to] raising. *)
Definition convert_sync (uuid4 filename : string) (convert_to : option string)
  : M ConvertResponse :=
  job ← (fun m w => let '(l, m') := ConvertQueue.create_job cfg uuid4 "" convert_to m in
                    (Ok l, m', w));
  outdir ← read (fun m => Job.outdir (heap m job));
  let infile := Py.join (Py.join outdir "input") filename in
  step (set_infile_path job infile);;
  with_sem job
    (step (set_status job JobStatus.running);;
     try_except
       (outfile ← _attempt_with_retries job;
        step (set_outfile_path job (Some outfile));;
        step (set_status job JobStatus.done))
       (fun e =>
          step (set_status job JobStatus.failed);;
          step (set_message job (Some (str e)));;
          raise (HTTPException 500 ("Conversion failed: " +:+ str e))));;
  job_id ← read (fun m => Job.id (heap m job));
  status ← read (fun m => Job.status (heap m job));
  mret (mkConvertResponse job_id status (Some ("/download/" +:+ job_id))).

Definition convert_async (uuid4 filename : string) (convert_to : option string)
  : M ConvertResponse :=
  job ← (fun m w => let '(l, m') := ConvertQueue.create_job cfg uuid4 "" convert_to m in
                    (Ok l, m', w));
  outdir ← read (fun m => Job.outdir (heap m job));
  let infile := Py.join (Py.join outdir "input") filename in
  step (set_infile_path job infile);;
  step (ConvertQueue.enqueue cfg job);;
  step (fun m => set_tasks (tasks m ++ [job]) m);;
  job_id ← read (fun m => Job.id (heap m job));
  status ← read (fun m => Job.status (heap m job));
  mret (mkConvertResponse job_id status None).

(** The event loop starts the oldest scheduled [run_job] coroutine. *)
Definition run_next_task : M unit :=
  fun m w =>
    match tasks m with
    | [] => (Ok tt, m, w)
    | job :: rest => run_job job (set_tasks rest m) w
    end.

(** One pass of the body of [cleanup_task]: [entries] lists the
    directories of [DATA_DIR] with their modification times, [wall_now]
    is [time.time()]. *)
Definition cleanup_cycle (wall_now : Q) (entries : list (string * Q)) : M unit :=
  now ← time;
  step (fun m =>
          foldl (fun m (e : string * Q) =>
                   if Qlt_bool (inject_Z (CLEANUP_AFTER_SECONDS cfg)) (wall_now - e.2)
                   then ConvertQueue.cleanup_job now e.1 m
                   else m)
                m entries);;
  step (ConvertQueue.evict_old_jobs cfg now).

End Coroutines.

(* ===================================================================== *)
(** * app/main.py: the runner handed to the queue *)
(* ===================================================================== *)

Module Main.

(** The world of the service: how each converter process to come will
    behave (as [idle] once the list is used up), what the operating system
    has been asked so far, and the loop clock. *)
Record World : Type := mkWorld {
  procs : list Converter.OS;
  asked : list Converter.Action;
  clock : Q;
}.

Definition idle : Converter.OS :=
  Converter.mkOS (fun p => "file://" +:+ p) (Converter.Exited 0 "" "") (Ok 0) true
                 (Ok tt) true (Ok tt) true [].

(** [runner(job)]: one invocation of the converter on the job's files. *)
Definition runner (cfg : Config) (job : Job.t) (w : World) : result string * World :=
  let os := List.hd idle (procs w) in
  let '(actions, r) :=
    Converter.run_libreoffice_convert (CONVERT_TIMEOUT cfg) (Job.infile_path job)
      (Job.outdir job) (Job.convert_to job) os in
  (r, mkWorld (List.tl (procs w)) (asked w ++ actions) (clock w)).

End Main.

(* ===================================================================== *)
(** * app/main.py: the query endpoints *)
(* ===================================================================== *)

Record StatusResponse : Type := mkStatusResponse {
  st_job_id : string;
  st_status : JobStatus.t;
  st_message : option string;
  st_download_url : option string;
  st_waiting_count : option nat;
  st_retries : option Z;
}.

(** [FileResponse(path, filename=...)] *)
Record FileResponse : Type := mkFileResponse {
  file_path : string;
  file_name : string;
}.

Module Api.

(** Truth value of an optional [str]: [None] and the empty string are
    false. *)
Definition nonempty (s : option string) : bool :=
  match s with
  | Some (String _ _) => true
  | _ => false
  end.

(** [GET /status/{job_id}] *)
Definition status (job_id : string) (m : Mem) : result StatusResponse :=
  match ConvertQueue.get job_id m with
  | None => Raise (HTTPException 404 "Job not found")
  | Some l =>
      let job := heap m l in
      let download_url :=
        if JobStatus.eqb (Job.status job) JobStatus.done && nonempty (Job.outfile_path job)
        then Some ("/download/" +:+ Job.id job)
        else None in
      let waiting :=
        if JobStatus.eqb (Job.status job) JobStatus.queued
        then ConvertQueue.waiting_count (Job.id job) m
        else None in
      Ok (mkStatusResponse (Job.id job) (Job.status job) (Job.message job)
            download_url waiting (Some (Job.retries job)))
  end.

(** [GET /download/{job_id}] *)
Definition download (job_id : string) (m : Mem) : result FileResponse :=
  match ConvertQueue.get job_id m with
  | None => Raise (HTTPException 404 "Job not found")
  | Some l =>
      let job := heap m l in
      if negb (JobStatus.eqb (Job.status job) JobStatus.done) ||
         negb (nonempty (Job.outfile_path job))
      then Raise (HTTPException 400 "File not ready")
      else
        match Job.outfile_path job with
        | Some path => Ok (mkFileResponse path (Py.basename path))
        | None => Raise (HTTPException 400 "File not ready")
        end
  end.

End Api.

(* ===================================================================== *)
(** * app/config.py and app/auth.py: the API key *)
(* ===================================================================== *)

Module Auth.

(** [config.getenv]; [environ] is [os.getenv]. *)
Definition getenv (environ : string -> option string) (key default : string) : string :=
  match environ key with
  | Some val => if String.eqb val "" then default else val
  | None => default
  end.

Definition API_KEY (environ : string -> option string) : string :=
  getenv environ "APIKEY" "changeme".

(** [x_api_key] is the [X-API-Key] header, [None] when the request has
    none. *)
Definition require_api_key (environ : string -> option string)
  (x_api_key : option string) : result unit :=
  if negb (String.eqb (API_KEY environ) "") &&
     negb (bool_decide (x_api_key = Some (API_KEY environ)))
  then Raise (HTTPException 401 "Unauthorized")
  else Ok tt.

End Auth.

(* ===================================================================== *)
(** * Starting the process and saving the upload, which can fail *)
(* ===================================================================== *)

(** [run_libreoffice_convert] together with the outcome of
    [asyncio.create_subprocess_exec]: when the program cannot be started
    the call raises there, after the two [os.makedirs] and before the
    [try] whose [finally] removes the profile directory; [os] answers for
    a process that was started. *)
Definition run_libreoffice_convert_spawning (CONVERT_TIMEOUT : Z)
  (input_path output_dir : string) (convert_to : option string)
  (os : Converter.OS) (spawned : result unit) : Converter.Act string :=
  match spawned with
  | Ok _ =>
      Converter.run_libreoffice_convert CONVERT_TIMEOUT input_path output_dir convert_to os
  | Raise e =>
      let profile_dir := Py.join output_dir "lo_profile" in
      Converter.act (Converter.Makedirs output_dir);;
      Converter.act (Converter.Makedirs profile_dir);;
      Converter.act
        (Converter.Spawn
           (Converter.soffice_args os profile_dir input_path output_dir convert_to));;
      Converter.throw e
  end.

Section Uploads.

Context {W : Type}.
Variable runner : Job.t -> W -> result string * W.
Variable cfg : Config.

(** Both conversion endpoints when [await save_upload_to(infile, file)]
    raises: the job has been created, and the exception leaves the
    endpoint before [job.infile_path] is assigned. *)
Definition upload_fails {A : Type} (e : Exception) (uuid4 : string)
  (convert_to : option string) : @M W A :=
  _ ← (fun m w => let '(l, m') := ConvertQueue.create_job cfg uuid4 "" convert_to m in
                  (Ok l, m', w));
  raise e.

(** [convert_sync] and [convert_async] together with the outcome [saved] of
    [await save_upload_to(infile, file)]. *)
Definition convert_sync_saving (saved : result unit) (uuid4 filename : string)
  (convert_to : option string) : @M W ConvertResponse :=
  match saved with
  | Ok _ => convert_sync runner cfg uuid4 filename convert_to
  | Raise e => upload_fails e uuid4 convert_to
  end.

Definition convert_async_saving (saved : result unit) (uuid4 filename : string)
  (convert_to : option string) : @M W ConvertResponse :=
  match saved with
  | Ok _ => convert_async cfg uuid4 filename convert_to
  | Raise e => upload_fails e uuid4 convert_to
  end.

End Uploads.

(* ===================================================================== *)
(** * The operations that write to the queue's state *)
(* ===================================================================== *)


Section Operations.

Context {W : Type}.
Variable runner : Job.t -> W -> result string * W.
Variable loop_time : W -> Q.
Variable cfg : Config.


End Operations.

(* ===================================================================== *)
(** * Vocabulary of the statements *)
(* ===================================================================== *)

(** The records of the registry whose job has status [s]. *)
Definition records_with (m : Mem) (s : JobStatus.t) : gmap string loc :=
  filter (fun kv : string * loc => Job.status (heap m kv.2) = s) (jobs m).

(** A job is past the retention window at [now]: it is in a terminal
    status and finished more than [JOB_RECORD_TTL_SECONDS] ago. *)
Definition Expired (cfg : Config) (now : Q) (j : Job.t) : Prop :=
  (Job.status j = JobStatus.done \/ Job.status j = JobStatus.failed \/
   Job.status j = JobStatus.cleaned) /\
  exists t, Job.finished_at j = Some t /\
            (inject_Z (JOB_RECORD_TTL_SECONDS cfg) < now - t)%Q.

(** The calls of the runner in a sequence of events, each with the job as
    the runner saw it and with the outcome; and the assignments to
    [job.retries], each with the value before and the value after. *)
Definition runner_calls (tr : list Event) : list (Job.t * result string) :=
  omap (fun ev => match ev with
                  | EvRunner _ seen outcome => Some (seen, outcome)
                  | _ => None
                  end) tr.

Definition retries_writes (tr : list Event) : list (Z * Z) :=
  omap (fun ev => match ev with
                  | EvRetries _ old new => Some (old, new)
                  | _ => None
                  end) tr.

Definition status_writes (tr : list Event) : list (loc * JobStatus.t * JobStatus.t) :=
  omap (fun ev => match ev with
                  | EvStatus job old new => Some (job, old, new)
                  | _ => None
                  end) tr.

(** The events of the retry loop over the attempt numbers [attempts], for a
    job whose counter holds [old], and the loop's outcome: a failed attempt
    is followed by the cooldown and the rest of the loop, a successful one
    ends the loop, and with no attempt left the loop raises. *)
Inductive retry_trace (job : loc) :
  Z -> list Z -> option Exception -> list Event -> result string -> Prop :=
| rt_exhausted old last_err :
    retry_trace job old [] last_err []
      (Raise (match last_err with
              | Some e => e
              | None => RuntimeError "Unknown conversion failure"
              end))
| rt_success old attempt rest last_err seen out :
    Job.retries seen = attempt ->
    retry_trace job old (attempt :: rest) last_err
      [EvRetries job old attempt; EvRunner job seen (Ok out)] (Ok out)
| rt_failure old attempt rest last_err seen e tr r :
    Job.retries seen = attempt ->
    retry_trace job attempt rest (Some e) tr r ->
    retry_trace job old (attempt :: rest) last_err
      (EvRetries job old attempt :: EvRunner job seen (Raise e) :: EvSleep :: tr) r.

(** Two memories that differ at most in the [retries] of their jobs and in
    their events. *)
Definition same_but_retries (m m' : Mem) : Prop :=
  (forall l, Job.set_retries 0 (heap m' l) = Job.set_retries 0 (heap m l)) /\
  next_loc m' = next_loc m /\ jobs m' = jobs m /\ pending m' = pending m /\
  tasks m' = tasks m.

(** The value of [job.retries] after the events [tr], from [old]. *)
Fixpoint final_retries (old : Z) (tr : list Event) : Z :=
  match tr with
  | [] => old
  | EvRetries _ _ new :: tr' => final_retries new tr'
  | _ :: tr' => final_retries old tr'
  end.

(** Stub runners and a one-job memory for the examples.  The world of a
    stub is the number of calls it has received. *)
Definition fails_until (k : Z) (job : Job.t) (calls : nat) : result string * nat :=
  (if Job.retries job <? k
   then Raise (RuntimeError ("attempt " +:+ pretty (Job.retries job) +:+ " failed"))
   else Ok (Py.join (Job.outdir job) "report.pdf"),
   S calls).

Definition one_job : Mem :=
  set_infile_path 0%nat "/tmp/o2pdata/job-1/input/report.docx"
    (ConvertQueue.create_job default_config "job-1" "" None empty_mem).2.

Definition stub_clock (calls : nat) : Q := inject_Z (Z.of_nat calls).

(** The takings and givings back of gate slots in a sequence of events. *)
Definition gate_events (tr : list Event) : list Event :=
  List.filter (fun ev => match ev with
                         | EvAcquire _ | EvRelease _ => true
                         | _ => false
                         end) tr.

(** A converter process that exits with status 0 having written [name]
    next to the [input] directory. *)
Definition converter_writes (name : string) : Converter.OS :=
  Converter.mkOS (fun p => "file://" +:+ p) (Converter.Exited 0 "" "") (Ok 4242) true
                 (Ok tt) true (Ok tt) true ["input"; name].

(** The default configuration with room for one pending job. *)
Definition one_slot_config : Config :=
  {| DATA_DIR := "/tmp/o2pdata";
     CONVERT_TIMEOUT := 600;
     CLEANUP_AFTER_SECONDS := 3600;
     MAX_RETRIES := 2;
     MAX_QUEUE_SIZE := 1;
     JOB_RECORD_TTL_SECONDS := 86400 |}.

(** A signal either was delivered or found the process gone, which Python
    reports as [ProcessLookupError]. *)
Definition delivered_or_gone (outcome : result unit) : Prop :=
  outcome = Ok tt \/ exists msg, outcome = Raise (ProcessLookupError msg).

(** The name test of [_find_output_pdf] for the input file [input_path]. *)
Definition pdf_for (input_path name : string) : bool :=
  Py.startswith (Py.splitext (Py.basename input_path)).1 name &&
  Py.endswith ".pdf" (Py.lower name).

(** The extension that goes with a target format, in the words of the
    specification: LibreOffice names the output after the format, which is
    what precedes the colon in [convert_to], [pdf] when there is none. *)
Fixpoint before_colon (s : string) : string :=
  match s with
  | EmptyString => EmptyString
  | String c s' => if Ascii.eqb c ":" then EmptyString else String c (before_colon s')
  end.

Definition expected_extension (convert_to : option string) : string :=
  "." +:+ before_colon (match convert_to with
                        | Some fmt => str_or fmt "pdf"
                        | None => "pdf"
                        end).

(** A converter process that outlives the deadline and its [SIGTERM], in a
    group of its own, and is gone when [SIGKILL] is sent. *)
Definition converter_hangs : Converter.OS :=
  Converter.mkOS (fun p => "file://" +:+ p) Converter.TimeoutError (Ok 4242) true
                 (Ok tt) false (Raise (ProcessLookupError "[Errno 3] No such process"))
                 true [].


(** The number of cooldowns ([asyncio.sleep(0.2)]) in a sequence of events,
    and the number of failed calls among the calls of the runner. *)
Definition cooldowns (tr : list Event) : nat :=
  length (List.filter (fun ev => match ev with EvSleep => true | _ => false end) tr).

Definition failures (calls : list (Job.t * result string)) : nat :=
  length (List.filter (fun c : Job.t * result string =>
                         match c.2 with Raise _ => true | Ok _ => false end) calls).

(** [l'] is [l] without the first occurrence of [x], if there is one. *)
Definition without_first (x : string) (l l' : list string) : Prop :=
  ((x ∉ l) /\ l' = l) \/
  (exists before after, l = before ++ x :: after /\ (x ∉ before) /\ l' = before ++ after).

(** The removals of a directory and the signals among the actions of the
    runner. *)
Definition removals (actions : list Converter.Action) : list Converter.Action :=
  List.filter (fun a => match a with Converter.Rmtree _ => true | _ => false end) actions.

Definition signals (actions : list Converter.Action) : list Converter.Action :=
  List.filter (fun a => match a with
                        | Converter.Killpg _ _ | Converter.Terminate | Converter.Kill => true
                        | _ => false
                        end) actions.

(** A converter process that exits with status 77 after complaining, with
    a PDF in the directory all the same; and one that outlives the
    deadline and cannot be signalled. *)
Definition converter_fails : Converter.OS :=
  Converter.mkOS (fun p => "file://" +:+ p)
                 (Converter.Exited 77 "" " Error: source file could not be loaded ")
                 (Ok 4242) true (Ok tt) true (Ok tt) true ["input"; "report.pdf"].

Definition converter_untouchable : Converter.OS :=
  Converter.mkOS (fun p => "file://" +:+ p) Converter.TimeoutError (Ok 4242) true
                 (Raise (OtherError "PermissionError" "[Errno 1] Operation not permitted"))
                 false (Ok tt) false [].










(** A converter process that outlives the deadline and its [SIGTERM], and
    that the service is not allowed to kill. *)
Definition converter_unkillable : Converter.OS :=
  Converter.mkOS (fun p => "file://" +:+ p) Converter.TimeoutError (Ok 4242) true
                 (Ok tt) false
                 (Raise (OtherError "PermissionError" "[Errno 1] Operation not permitted"))
                 false [].

(* ===================================================================== *)
(** * Properties *)
(* ===================================================================== *)

(** ** Counting records by status *)

Lemma length_with_status s (m : Mem) (kvs : list (string * loc)) :
  length (ConvertQueue.with_status s ((fun kv : string * loc => heap m kv.2) <$> kvs)) =
  length (filter (fun kv : string * loc => Job.status (heap m kv.2) = s) kvs).
Proof.
  induction kvs as [|kv kvs IH]; [reflexivity|].
  rewrite fmap_cons, filter_cons. unfold ConvertQueue.with_status in *. simpl.
  unfold JobStatus.eqb at 1.
  destruct (decide (Job.status (heap m kv.2) = s)) as [Heq|Hne].
  - rewrite bool_decide_eq_true_2 by exact Heq. simpl. now rewrite IH.
  - rewrite bool_decide_eq_false_2 by exact Hne. exact IH.
Qed.

Lemma bucket_size s m :
  length (ConvertQueue.with_status s (ConvertQueue.values m)) = size (records_with m s).
Proof.
  unfold ConvertQueue.values, records_with.
  rewrite length_with_status, map_filter_alt, map_size_list_to_map; [reflexivity|].
  eapply NoDup_fmap_fst.
  - intros k x y Hx Hy. apply list_elem_of_filter in Hx as [_ Hx], Hy as [_ Hy].
    apply elem_of_map_to_list in Hx, Hy. congruence.
  - apply NoDup_filter, NoDup_map_to_list.
Qed.

Lemma status_classes (js : list Job.t) :
  (length (ConvertQueue.with_status JobStatus.queued js) +
   length (ConvertQueue.with_status JobStatus.running js) +
   length (ConvertQueue.with_status JobStatus.done js) +
   length (ConvertQueue.with_status JobStatus.failed js) +
   length (ConvertQueue.with_status JobStatus.cleaned js) = length js)%nat.
Proof.
  induction js as [|j js IH]; [reflexivity|].
  unfold ConvertQueue.with_status in *. simpl.
  destruct (Job.status j); simpl; lia.
Qed.

(** C10.  [counters()] reports as [total] the number of records of the
    registry and, in each of its four buckets, the number of records with
    that status; a record whose status is [cleaned] is in no bucket, so the
    four buckets and the cleaned records add up to [total]. *)
Theorem counters_partition (m : Mem) :
  let c := ConvertQueue.counters m in
  Counters.total c = size (jobs m) /\
  Counters.queue_len c = size (records_with m JobStatus.queued) /\
  Counters.running c = size (records_with m JobStatus.running) /\
  Counters.done c = size (records_with m JobStatus.done) /\
  Counters.failed c = size (records_with m JobStatus.failed) /\
  (Counters.queue_len c + Counters.running c + Counters.done c + Counters.failed c
   = Counters.total c - size (records_with m JobStatus.cleaned))%nat /\
  (size (records_with m JobStatus.cleaned) <= Counters.total c)%nat.
Proof.
  simpl. rewrite !bucket_size.
  pose proof (status_classes (ConvertQueue.values m)) as Hsum.
  rewrite !bucket_size in Hsum.
  assert (length (ConvertQueue.values m) = size (jobs m)) as Hlen.
  { unfold ConvertQueue.values. now rewrite length_fmap, length_map_to_list. }
  rewrite Hlen in Hsum. repeat split; lia.
Qed.

(** ** The eviction sweep *)

Lemma lookup_foldl_delete (ks : list string) (js : gmap string loc) (k : string) :
  foldl (fun js jid => delete jid js) js ks !! k =
  if decide (k ∈ ks) then None else js !! k.
Proof.
  revert js. induction ks as [|k' ks IH]; intros js; simpl.
  - destruct (decide (k ∈ [])) as [Hin|_]; [inversion Hin | reflexivity].
  - rewrite IH. destruct (decide (k ∈ ks)) as [Hin|Hnin].
    + rewrite decide_True by (now right). reflexivity.
    + destruct (decide (k = k')) as [->|Hne].
      * rewrite decide_True by left. apply lookup_delete_eq.
      * rewrite decide_False by (intros Hc; inversion Hc; subst; tauto).
        now apply lookup_delete_ne.
Qed.

Lemma Qlt_bool_iff (a b : Q) : Qlt_bool a b = true <-> (a < b)%Q.
Proof.
  unfold Qlt_bool. rewrite negb_true_iff, <- not_true_iff_false, Qle_bool_iff.
  split; [apply Qnot_le_lt | apply Qlt_not_le].
Qed.

Lemma expired_iff cfg now j : ConvertQueue.expired cfg now j = true <-> Expired cfg now j.
Proof.
  unfold ConvertQueue.expired, Expired. rewrite andb_true_iff. split.
  - intros [Hs Ht]. destruct (Job.finished_at j) as [t|]; [|discriminate].
    split; [|exists t; split; [reflexivity | now apply Qlt_bool_iff]].
    destruct (Job.status j); simpl in Hs; try discriminate; auto.
  - intros [Hs (t & -> & Hlt)]. split; [|now apply Qlt_bool_iff].
    destruct Hs as [-> | [-> | ->]]; reflexivity.
Qed.

Lemma evict_lookup cfg now m job_id :
  0 < JOB_RECORD_TTL_SECONDS cfg ->
  jobs (ConvertQueue.evict_old_jobs cfg now m) !! job_id =
  match jobs m !! job_id with
  | Some l => if ConvertQueue.expired cfg now (heap m l) then None else Some l
  | None => None
  end.
Proof.
  intros Hpos. unfold ConvertQueue.evict_old_jobs.
  destruct (Z.leb_spec (JOB_RECORD_TTL_SECONDS cfg) 0) as [Hle|_]; [lia|].
  simpl. rewrite lookup_foldl_delete.
  destruct (jobs m !! job_id) as [l|] eqn:Hl.
  - destruct (ConvertQueue.expired cfg now (heap m l)) eqn:He.
    + rewrite decide_True; [reflexivity|].
      apply list_elem_of_fmap. exists (job_id, l). split; [reflexivity|].
      apply list_elem_of_In, filter_In. split; [|exact He].
      apply list_elem_of_In, elem_of_map_to_list, Hl.
    + rewrite decide_False; [reflexivity|].
      intros Hin. apply list_elem_of_fmap in Hin as ([k l'] & Hk & Hin).
      simpl in Hk; subst k.
      apply list_elem_of_In, filter_In in Hin as [Hin He'].
      apply list_elem_of_In, elem_of_map_to_list in Hin. simpl in He'. congruence.
  - destruct (decide _); reflexivity.
Qed.

(** C8.  The eviction sweep removes from the registry exactly the records
    whose job is [done], [failed] or [cleaned] and finished more than the
    retention window ago; every other record stays, on the same object, and
    no object changes; with a window of zero or less nothing changes. *)
Theorem evict_old_jobs_exact (cfg : Config) (now : Q) (m : Mem) :
  let m' := ConvertQueue.evict_old_jobs cfg now m in
  (forall job_id,
      jobs m' !! job_id = None <->
      jobs m !! job_id = None \/
      exists l, jobs m !! job_id = Some l /\
                0 < JOB_RECORD_TTL_SECONDS cfg /\ Expired cfg now (heap m l)) /\
  (forall job_id l, jobs m' !! job_id = Some l -> jobs m !! job_id = Some l) /\
  heap m' = heap m /\
  pending m' = pending m /\
  (JOB_RECORD_TTL_SECONDS cfg <= 0 -> m' = m).
Proof.
  simpl. destruct (Z.leb_spec (JOB_RECORD_TTL_SECONDS cfg) 0) as [Hle|Hpos].
  - assert (ConvertQueue.evict_old_jobs cfg now m = m) as ->.
    { unfold ConvertQueue.evict_old_jobs.
      destruct (Z.leb_spec (JOB_RECORD_TTL_SECONDS cfg) 0); [reflexivity | lia]. }
    repeat split; auto.
    intros [H | (l & _ & Hpos & _)]; [exact H | lia].
  - split; [|split; [|split; [|split]]].
    + intros job_id. rewrite evict_lookup by exact Hpos.
      destruct (jobs m !! job_id) as [l|]; [|tauto].
      destruct (ConvertQueue.expired cfg now (heap m l)) eqn:He.
      * split; [|reflexivity]. intros _. right. exists l.
        split; [reflexivity | split; [exact Hpos | now apply expired_iff]].
      * split; [discriminate|].
        intros [H | (l' & Hl' & _ & Hex)]; [discriminate|].
        injection Hl' as <-. apply expired_iff in Hex. congruence.
    + intros job_id l. rewrite evict_lookup by exact Hpos.
      destruct (jobs m !! job_id) as [l'|]; [|discriminate].
      destruct (ConvertQueue.expired cfg now (heap m l')); [discriminate | trivial].
    + unfold ConvertQueue.evict_old_jobs.
      destruct (JOB_RECORD_TTL_SECONDS cfg <=? 0); reflexivity.
    + unfold ConvertQueue.evict_old_jobs.
      destruct (JOB_RECORD_TTL_SECONDS cfg <=? 0); reflexivity.
    + lia.
Qed.

(** ** The retry loop *)

Ltac unfold_M :=
  unfold mbind, mret, M_bind, M_ret, step, read, raise, time, try_except, with_sem in *.

Lemma same_but_retries_refl m : same_but_retries m m.
Proof. now repeat split. Qed.

Lemma same_but_retries_trans m1 m2 m3 :
  same_but_retries m1 m2 -> same_but_retries m2 m3 -> same_but_retries m1 m3.
Proof.
  intros (Ha & ? & ? & ? & ?) (Hb & ? & ? & ? & ?).
  split; [intros l; now rewrite Hb, Ha | repeat split; congruence].
Qed.

Lemma same_but_retries_emit ev m : same_but_retries m (emit ev m).
Proof. now repeat split. Qed.

Lemma same_but_retries_set job v m : same_but_retries m (set_retries job v m).
Proof.
  repeat split; try reflexivity. intros l. unfold set_retries, emit, upd; simpl.
  destruct (decide (l = job)); reflexivity.
Qed.

Section RetryLoop.

Context {W : Type}.
Variable runner : Job.t -> W -> result string * W.

Lemma attempt_loop_trace job attempts :
  forall last_err m w r m' w',
    attempt_loop runner job attempts last_err m w = (r, m', w') ->
    exists tr,
      log m' = log m ++ tr /\
      retry_trace job (Job.retries (heap m job)) attempts last_err tr r /\
      same_but_retries m m' /\
      Job.retries (heap m' job) = final_retries (Job.retries (heap m job)) tr.
Proof.
  induction attempts as [|attempt rest IH]; intros last_err m w r m' w' Hrun.
  - simpl in Hrun. unfold_M. injection Hrun as <- <- <-.
    exists []. rewrite app_nil_r. split; [reflexivity|].
    split; [constructor|]. split; [apply same_but_retries_refl | reflexivity].
  - simpl in Hrun. unfold_M. unfold _run_once in Hrun.
    set (m1 := set_retries job attempt m) in *.
    destruct (runner (heap m1 job) w) as [[out|e] w1] eqn:Hcall.
    + injection Hrun as <- <- <-.
      exists [EvRetries job (Job.retries (heap m job)) attempt;
              EvRunner job (heap m1 job) (Ok out)].
      split; [simpl; now rewrite <- app_assoc|].
      split.
      * constructor. subst m1. unfold set_retries, emit. simpl.
        now destruct (decide (job = job)).
      * split.
        -- eapply same_but_retries_trans;
             [apply same_but_retries_set | apply same_but_retries_emit].
        -- subst m1. unfold set_retries, emit. simpl.
           now destruct (decide (job = job)).
    + apply IH in Hrun as (tr & Hlog & Htr & Hsame & Hfin).
      assert (Job.retries (heap (emit EvSleep
                (emit (EvRunner job (heap m1 job) (Raise e)) m1)) job) = attempt) as Hnow.
      { subst m1. unfold set_retries, emit. simpl. now destruct (decide (job = job)). }
      exists (EvRetries job (Job.retries (heap m job)) attempt ::
              EvRunner job (heap m1 job) (Raise e) :: EvSleep :: tr).
      split; [rewrite Hlog; simpl; now rewrite <- !app_assoc|].
      split.
      * constructor.
        -- subst m1. unfold set_retries, emit. simpl.
           now destruct (decide (job = job)).
        -- rewrite Hnow in Htr. exact Htr.
      * split.
        -- eapply same_but_retries_trans; [|exact Hsame].
           eapply same_but_retries_trans; [apply same_but_retries_set|].
           eapply same_but_retries_trans; apply same_but_retries_emit.
        -- rewrite Hfin, Hnow. reflexivity.
Qed.

Lemma attempt_with_retries_trace job m w r m' w' :
  _attempt_with_retries runner job m w = (r, m', w') ->
  exists tr,
    log m' = log m ++ tr /\
    retry_trace job (Job.retries (heap m job))
      (seqZ 0 (Job.max_retries (heap m job) + 1)) None tr r /\
    same_but_retries m m' /\
    Job.retries (heap m' job) = final_retries (Job.retries (heap m job)) tr.
Proof.
  unfold _attempt_with_retries. unfold_M. apply attempt_loop_trace.
Qed.

End RetryLoop.

(** ** What a trace of the retry loop tells *)

Lemma seqZ_cons_inv a k x l :
  x :: l = seqZ a k -> x = a /\ l = seqZ (a + 1) (k - 1) /\ 0 < k.
Proof.
  intros Heq. destruct (Z_lt_le_dec 0 k) as [Hpos|Hle].
  - rewrite seqZ_cons in Heq by exact Hpos. injection Heq as -> ->.
    now rewrite <- Z.add_1_r, <- Z.sub_1_r.
  - rewrite seqZ_nil in Heq by exact Hle. discriminate.
Qed.

Lemma seqZ_one a : seqZ a 1 = [a].
Proof. rewrite seqZ_cons by lia. simpl. now rewrite seqZ_nil by lia. Qed.

Lemma retry_trace_numbering job old attempts last_err tr r :
  retry_trace job old attempts last_err tr r ->
  forall a k, attempts = seqZ a k ->
    let n := Z.of_nat (length (runner_calls tr)) in
    n <= Z.max 0 k /\
    (retries_writes tr).*2 = seqZ a n /\
    Job.retries <$> (runner_calls tr).*1 = seqZ a n /\
    (old <= a ->
     Forall (fun ow : Z * Z => ow.1 <= ow.2 /\ ow.2 < a + k) (retries_writes tr)) /\
    final_retries old tr = (if n =? 0 then old else a + n - 1).
Proof.
  induction 1 as [old last_err
                 |old attempt rest last_err seen out Hseen
                 |old attempt rest last_err seen e tr r Hseen Htr IH];
    intros a k Heq; cbn zeta.
  - simpl. split; [lia|]. split; [reflexivity|]. split; [reflexivity|].
    split; [constructor | reflexivity].
  - apply seqZ_cons_inv in Heq as (-> & _ & Hk). simpl.
    rewrite Hseen, seqZ_one. split; [lia|]. split; [reflexivity|]. split; [reflexivity|].
    split; [|lia].
    intros Hle. constructor; [simpl; lia | constructor].
  - apply seqZ_cons_inv in Heq as (-> & Hrest & Hk).
    specialize (IH _ _ Hrest) as (Hn & Hw & Hc & Hmono & Hfin).
    cbn [runner_calls retries_writes omap list_omap final_retries length fmap list_fmap
         fst snd] in *.
    fold (runner_calls tr) in *. fold (retries_writes tr) in *.
    set (n := Z.of_nat (length (runner_calls tr))) in *.
    rewrite Nat2Z.inj_succ. fold n. rewrite Hw, Hc, Hseen.
    assert (0 <= n) as Hn0 by (subst n; lia).
    repeat split.
    + lia.
    + rewrite (seqZ_cons a (Z.succ n)) by lia.
      now rewrite Z.pred_succ, Z.add_1_r.
    + rewrite (seqZ_cons a (Z.succ n)) by lia.
      now rewrite Z.pred_succ, Z.add_1_r.
    + intros Hle. constructor; [simpl; lia|].
      eapply Forall_impl; [apply Hmono; lia|].
      intros [o w] [? ?]; simpl in *. lia.
    + rewrite Hfin. destruct (Z.eqb_spec n 0); destruct (Z.eqb_spec (Z.succ n) 0); lia.
Qed.

Lemma retry_trace_outcome job old attempts last_err tr r :
  retry_trace job old attempts last_err tr r ->
  let calls := runner_calls tr in
  (forall i seen out,
      calls !! i = Some (seen, Ok out) -> S i = length calls /\ r = Ok out) /\
  (forall out, r = Ok out -> exists seen, last calls = Some (seen, Ok out)) /\
  (forall e, r = Raise e ->
     length calls = length attempts /\
     Forall (fun c : Job.t * result string => exists e', c.2 = Raise e') calls /\
     match last calls with
     | Some c => c.2 = Raise e
     | None => e = match last_err with
                   | Some e' => e'
                   | None => RuntimeError "Unknown conversion failure"
                   end
     end).
Proof.
  induction 1 as [old last_err
                 |old attempt rest last_err seen out Hseen
                 |old attempt rest last_err seen e tr r Hseen Htr IH]; cbn zeta.
  - simpl. split; [|split].
    + intros i seen out Hi. discriminate.
    + intros out Hr. discriminate.
    + intros e Hr. split; [reflexivity|]. split; [constructor | congruence].
  - simpl. split; [|split].
    + intros [|i] seen' out' Hi; simpl in Hi; [|discriminate].
      injection Hi as <- <-. now split.
    + intros out' Hr. injection Hr as <-. now exists seen.
    + intros e Hr. discriminate.
  - destruct IH as (Hok & Hlast & Hraise).
    cbn [runner_calls omap list_omap] in *. fold (runner_calls tr) in *.
    split; [|split].
    + intros [|i] seen' out' Hi; simpl in Hi; [discriminate|].
      apply Hok in Hi as [Hi ->]. split; [simpl; now rewrite <- Hi | reflexivity].
    + intros out Hr. destruct (Hlast _ Hr) as [seen' Hl]. exists seen'.
      destruct (runner_calls tr); [discriminate|]. exact Hl.
    + intros e0 Hr. destruct (Hraise _ Hr) as (Hlen & Hall & Hl).
      split; [simpl; now f_equal|]. split; [constructor; simpl; eauto|].
      destruct (runner_calls tr) as [|c cs]; simpl in *; [now subst e0|].
      destruct (last (c :: cs)) eqn:Hlc; [exact Hl|].
      apply last_None in Hlc. discriminate.
Qed.

(** ** The retry controller *)

(** C4.  For a job whose counter starts at 0 and whose [max_retries] is not
    negative, the retry loop calls the runner at most [max_retries + 1]
    times; the [i]-th call (from 0) is preceded by the assignment of [i] to
    [job.retries], so the runner sees [i] there; a successful call is the
    last one and gives the loop's result; no assignment lowers the counter,
    and the counter never exceeds [max_retries]. *)
Theorem attempts_bounded_and_numbered {W : Type}
  (runner : Job.t -> W -> result string * W) (job : loc) (m : Mem) (w : W)
  (r : result string) (m' : Mem) (w' : W) :
  Job.retries (heap m job) = 0 ->
  0 <= Job.max_retries (heap m job) ->
  _attempt_with_retries runner job m w = (r, m', w') ->
  exists tr,
    log m' = log m ++ tr /\
    let calls := runner_calls tr in
    let n := Z.of_nat (length calls) in
    let max_retries := Job.max_retries (heap m job) in
    n <= max_retries + 1 /\
    (retries_writes tr).*2 = seqZ 0 n /\
    Job.retries <$> calls.*1 = seqZ 0 n /\
    (forall i seen out,
        calls !! i = Some (seen, Ok out) -> S i = length calls /\ r = Ok out) /\
    Forall (fun ow : Z * Z => ow.1 <= ow.2 <= max_retries) (retries_writes tr) /\
    0 <= Job.retries (heap m' job) <= max_retries /\
    Job.max_retries (heap m' job) = max_retries.
Proof.
  intros Hzero Hmax Hrun.
  apply attempt_with_retries_trace in Hrun as (tr & Hlog & Htr & Hsame & Hfin).
  exists tr. split; [exact Hlog|]. cbn zeta.
  pose proof (retry_trace_numbering _ _ _ _ _ _ Htr 0 _ eq_refl)
    as (Hn & Hw & Hc & Hmono & Hlast).
  pose proof (retry_trace_outcome _ _ _ _ _ _ Htr) as (Hok & _ & _).
  cbn zeta in *. rewrite Hzero in *.
  set (n := Z.of_nat (length (runner_calls tr))) in *.
  split; [lia|]. split; [exact Hw|]. split; [exact Hc|]. split; [exact Hok|].
  split; [|split].
  - eapply Forall_impl; [apply Hmono; lia|]. intros [o v] [? ?]; simpl in *. lia.
  - rewrite Hfin, Hlast. destruct (Z.eqb_spec n 0); subst n; lia.
  - destruct Hsame as (Hheap & _). specialize (Hheap job).
    apply (f_equal Job.max_retries) in Hheap. exact Hheap.
Qed.

Lemma attempts_bounded_and_numbered_witness :
  let run := _attempt_with_retries (fails_until 2) 0%nat one_job 0%nat in
  exists tr,
    log run.1.2 = log one_job ++ tr /\
    Z.of_nat (length (runner_calls tr)) <= 2 + 1 /\
    (retries_writes tr).*2 = seqZ 0 (Z.of_nat (length (runner_calls tr))) /\
    Job.retries <$> (runner_calls tr).*1 = seqZ 0 (Z.of_nat (length (runner_calls tr))) /\
    (forall i seen out,
        runner_calls tr !! i = Some (seen, Ok out) ->
        S i = length (runner_calls tr) /\ run.1.1 = Ok out) /\
    Forall (fun ow : Z * Z => ow.1 <= ow.2 <= 2) (retries_writes tr) /\
    0 <= Job.retries (heap run.1.2 0%nat) <= 2 /\
    Job.max_retries (heap run.1.2 0%nat) = 2.
Proof.
  intros run.
  exact (attempts_bounded_and_numbered (fails_until 2) 0%nat one_job 0%nat
           run.1.1 run.1.2 run.2 eq_refl ltac:(vm_compute; discriminate) eq_refl).
Defined.



(** ** The scheduler loop *)

(** C3.  [run_job] returns normally whatever the runner does, and leaves
    the job [done] with [outfile_path] and [finished_at] set when the retry
    loop returned a path, [failed] with [message] and [finished_at] set
    when the retry loop raised. *)
Theorem run_job_always_terminal {W : Type}
  (runner : Job.t -> W -> result string * W) (loop_time : W -> Q)
  (job : loc) (m : Mem) (w : W) :
  let started :=
    set_status job JobStatus.running
      (drop_pending (Job.id (heap m job)) (emit (EvAcquire job) m)) in
  let '(attempted, _, w1) := _attempt_with_retries runner job started w in
  let '(r, m', w') := run_job runner loop_time job m w in
  r = Ok tt /\ w' = w1 /\
  match attempted with
  | Ok out =>
      Job.status (heap m' job) = JobStatus.done /\
      Job.outfile_path (heap m' job) = Some out /\
      Job.finished_at (heap m' job) = Some (loop_time w')
  | Raise e =>
      Job.status (heap m' job) = JobStatus.failed /\
      Job.message (heap m' job) = Some (str e) /\
      Job.finished_at (heap m' job) = Some (loop_time w')
  end.
Proof.
  cbn zeta. unfold run_job. unfold_M. simpl heap.
  destruct (_attempt_with_retries runner job _ w) as [[[out|e] m1] w1]; simpl;
    destruct (decide (job = job)) as [_|Hne]; try congruence; auto.
Qed.

(** ** The synchronous endpoint *)

Lemma same_but_retries_fields m m' l :
  same_but_retries m m' ->
  Job.id (heap m' l) = Job.id (heap m l) /\
  Job.status (heap m' l) = Job.status (heap m l) /\
  Job.message (heap m' l) = Job.message (heap m l) /\
  Job.outfile_path (heap m' l) = Job.outfile_path (heap m l) /\
  Job.max_retries (heap m' l) = Job.max_retries (heap m l) /\
  Job.finished_at (heap m' l) = Job.finished_at (heap m l).
Proof.
  intros (Hheap & _). specialize (Hheap l).
  repeat split;
    [ apply (f_equal Job.id) in Hheap
    | apply (f_equal Job.status) in Hheap
    | apply (f_equal Job.message) in Hheap
    | apply (f_equal Job.outfile_path) in Hheap
    | apply (f_equal Job.max_retries) in Hheap
    | apply (f_equal Job.finished_at) in Hheap ]; exact Hheap.
Qed.

(** C7 fails on the synchronous path.  [convert_sync] brings its job to
    [done] or to [failed] and returns, or raises, with [finished_at] still
    unset. *)
Theorem convert_sync_leaves_finished_at_unset {W : Type}
  (runner : Job.t -> W -> result string * W) (cfg : Config)
  (uuid4 filename : string) (convert_to : option string) (m : Mem) (w : W) :
  let job := next_loc m in
  let '(r, m', _) := convert_sync runner cfg uuid4 filename convert_to m w in
  Job.finished_at (heap m' job) = None /\
  match r with
  | Ok resp =>
      resp_status resp = JobStatus.done /\ Job.status (heap m' job) = JobStatus.done
  | Raise e =>
      (exists detail, e = HTTPException 500 detail) /\
      Job.status (heap m' job) = JobStatus.failed
  end.
Proof.
  cbn zeta. unfold convert_sync, ConvertQueue.create_job. unfold_M. simpl heap.
  match goal with
  | |- context [_attempt_with_retries runner ?l ?ms w] =>
      destruct (_attempt_with_retries runner l ms w) as [[[out|e] m1] w1] eqn:Hatt;
      apply attempt_with_retries_trace in Hatt as (tr & _ & _ & Hsame & _);
      apply (same_but_retries_fields _ _ l) in Hsame as (_ & _ & _ & _ & _ & Hfin);
      revert Hfin
  end; simpl; destruct (decide (next_loc m = next_loc m)) as [_|Hne];
    try congruence; intros Hfin; (split; [exact Hfin|]); eauto.
Qed.

(** ** Admission *)

Lemma enqueue_full cfg job m :
  0 < MAX_QUEUE_SIZE cfg ->
  MAX_QUEUE_SIZE cfg <= Z.of_nat (length (pending m)) ->
  ConvertQueue.enqueue cfg job m =
  set_message job (Some "Queue is full") (set_status job JobStatus.failed m).
Proof.
  intros Hpos Hfull. unfold ConvertQueue.enqueue, truthy.
  destruct (Z.eqb_spec (MAX_QUEUE_SIZE cfg) 0); [lia|].
  destruct (Z.leb_spec (MAX_QUEUE_SIZE cfg) (Z.of_nat (length (pending m)))); [|lia].
  reflexivity.
Qed.

Lemma enqueue_full_fields cfg job m :
  0 < MAX_QUEUE_SIZE cfg ->
  MAX_QUEUE_SIZE cfg <= Z.of_nat (length (pending m)) ->
  let m' := ConvertQueue.enqueue cfg job m in
  Job.status (heap m' job) = JobStatus.failed /\
  Job.message (heap m' job) = Some "Queue is full" /\
  Job.finished_at (heap m' job) = Job.finished_at (heap m job) /\
  pending m' = pending m.
Proof.
  intros Hpos Hfull. cbn zeta. rewrite enqueue_full by assumption.
  unfold set_message, set_status, emit, upd. simpl.
  destruct (decide (job = job)); [|congruence]. now repeat split.
Qed.

Lemma enqueue_unbounded cfg job m :
  MAX_QUEUE_SIZE cfg = 0 ->
  let m' := ConvertQueue.enqueue cfg job m in
  (Job.id (heap m job) ∉ pending m ->
   pending m' = pending m ++ [Job.id (heap m job)] /\
   Job.status (heap m' job) = JobStatus.queued) /\
  (Job.id (heap m job) ∈ pending m -> m' = m).
Proof.
  intros Hzero. cbn zeta. unfold ConvertQueue.enqueue, truthy. rewrite Hzero. simpl.
  split; intros Hin.
  - rewrite bool_decide_eq_false_2 by exact Hin. simpl.
    destruct (decide (job = job)); [|congruence]. now split.
  - rewrite bool_decide_eq_true_2 by exact Hin. reflexivity.
Qed.

(** C1 fails on the code.  With room for one pending job and one already
    pending, [convert_async] has [enqueue] mark the new job [failed] with
    the message and keep it out of the pending list, but [finished_at] stays
    unset and the [run_job] coroutine is scheduled all the same: started by
    the loop it takes a gate slot, calls the runner and ends with the job
    [done]. *)
Theorem rejected_job_is_still_run :
  let m0 := set_pending ["job-0"] empty_mem in
  let w0 := Main.mkWorld [converter_writes "a.pdf"] [] 5 in
  let '(resp, m1, w1) := convert_async one_slot_config "job-1" "a.docx" None m0 w0 in
  let '(_, m2, _) := run_next_task (Main.runner one_slot_config) Main.clock m1 w1 in
  (resp_status <$> match resp with Ok v => Some v | Raise _ => None end)
    = Some JobStatus.failed /\
  Job.status (heap m1 0%nat) = JobStatus.failed /\
  Job.message (heap m1 0%nat) = Some "Queue is full" /\
  pending m1 = ["job-0"] /\
  Job.finished_at (heap m1 0%nat) = None /\
  tasks m1 = [0%nat] /\
  gate_events (log m2) = [EvAcquire 0%nat; EvRelease 0%nat] /\
  (runner_calls (log m2)).*2 = [Ok "/tmp/o2pdata/job-1/a.pdf"] /\
  status_writes (log m2) =
    [(0%nat, JobStatus.queued, JobStatus.failed);
     (0%nat, JobStatus.failed, JobStatus.running);
     (0%nat, JobStatus.running, JobStatus.done)] /\
  Job.status (heap m2 0%nat) = JobStatus.done.
Proof. vm_compute. repeat split; reflexivity. Qed.

(** ** Status transitions *)

Lemma drop_pending_heap job_id m : heap (drop_pending job_id m) = heap m.
Proof.
  unfold drop_pending. destruct (bool_decide _); [|reflexivity].
  destruct (list_remove _ _); reflexivity.
Qed.

Lemma drop_pending_log job_id m : log (drop_pending job_id m) = log m.
Proof.
  unfold drop_pending. destruct (bool_decide _); [|reflexivity].
  destruct (list_remove _ _); reflexivity.
Qed.

Lemma retry_trace_no_status job old attempts last_err tr r :
  retry_trace job old attempts last_err tr r -> status_writes tr = [].
Proof. induction 1; simpl; auto. Qed.

Lemma status_writes_app tr1 tr2 :
  status_writes (tr1 ++ tr2) = status_writes tr1 ++ status_writes tr2.
Proof. apply omap_app. Qed.

Lemma run_job_status_writes {W : Type}
  (runner : Job.t -> W -> result string * W) (loop_time : W -> Q)
  (job : loc) (m : Mem) (w : W) :
  let '(_, m', _) := run_job runner loop_time job m w in
  exists tr final,
    log m' = log m ++ tr /\
    (final = JobStatus.done \/ final = JobStatus.failed) /\
    status_writes tr =
      [(job, Job.status (heap m job), JobStatus.running);
       (job, JobStatus.running, final)] /\
    Job.status (heap m' job) = final.
Proof.
  unfold run_job. unfold_M. simpl heap.
  match goal with
  | |- context [_attempt_with_retries runner job ?ms w] =>
      destruct (_attempt_with_retries runner job ms w) as [[[out|e] m1] w1] eqn:Hatt;
      apply attempt_with_retries_trace in Hatt as (tr & Hlog & Htr & Hsame & _);
      apply retry_trace_no_status in Htr;
      apply (same_but_retries_fields _ _ job) in Hsame as (_ & Hst & _);
      revert Hlog Hst
  end; simpl; rewrite drop_pending_heap, drop_pending_log;
    destruct (decide (job = job)) as [_|Hne]; try congruence; simpl;
    intros Hlog Hst.
  - exists ([EvAcquire job; EvStatus job (Job.status (heap m job)) JobStatus.running]
            ++ tr ++ [EvStatus job (Job.status (heap m1 job)) JobStatus.done;
                      EvRelease job]), JobStatus.done.
    split; [rewrite Hlog; now rewrite <- !app_assoc|].
    split; [now left|]. split; [|reflexivity].
    rewrite !status_writes_app, Htr, Hst. reflexivity.
  - exists ([EvAcquire job; EvStatus job (Job.status (heap m job)) JobStatus.running]
            ++ tr ++ [EvStatus job (Job.status (heap m1 job)) JobStatus.failed;
                      EvRelease job]), JobStatus.failed.
    split; [rewrite Hlog; now rewrite <- !app_assoc|].
    split; [now right|]. split; [|reflexivity].
    rewrite !status_writes_app, Htr, Hst. reflexivity.
Qed.

Lemma convert_sync_status_writes {W : Type}
  (runner : Job.t -> W -> result string * W) (cfg : Config)
  (uuid4 filename : string) (convert_to : option string) (m : Mem) (w : W) :
  let job := next_loc m in
  let '(_, m', _) := convert_sync runner cfg uuid4 filename convert_to m w in
  exists tr final,
    log m' = log m ++ tr /\
    (final = JobStatus.done \/ final = JobStatus.failed) /\
    status_writes tr =
      [(job, JobStatus.queued, JobStatus.running); (job, JobStatus.running, final)] /\
    Job.status (heap m' job) = final.
Proof.
  cbn zeta. unfold convert_sync, ConvertQueue.create_job. unfold_M. simpl heap.
  match goal with
  | |- context [_attempt_with_retries runner ?l ?ms w] =>
      destruct (_attempt_with_retries runner l ms w) as [[[out|e] m1] w1] eqn:Hatt;
      apply attempt_with_retries_trace in Hatt as (tr & Hlog & Htr & Hsame & _);
      apply retry_trace_no_status in Htr;
      apply (same_but_retries_fields _ _ l) in Hsame as (_ & Hst & _);
      revert Hlog Hst
  end; simpl; destruct (decide (next_loc m = next_loc m)) as [_|Hne];
    try congruence; simpl; intros Hlog Hst.
  - exists ([EvAcquire (next_loc m);
             EvStatus (next_loc m) JobStatus.queued JobStatus.running]
            ++ tr ++ [EvStatus (next_loc m) (Job.status (heap m1 (next_loc m)))
                        JobStatus.done;
                      EvRelease (next_loc m)]), JobStatus.done.
    split; [rewrite Hlog; now rewrite <- !app_assoc|].
    split; [now left|]. split; [|reflexivity].
    rewrite !status_writes_app, Htr, Hst. reflexivity.
  - exists ([EvAcquire (next_loc m);
             EvStatus (next_loc m) JobStatus.queued JobStatus.running]
            ++ tr ++ [EvStatus (next_loc m) (Job.status (heap m1 (next_loc m)))
                        JobStatus.failed;
                      EvRelease (next_loc m)]), JobStatus.failed.
    split; [rewrite Hlog; now rewrite <- !app_assoc|].
    split; [now right|]. split; [|reflexivity].
    rewrite !status_writes_app, Htr, Hst. reflexivity.
Qed.

Lemma cleanup_job_registered now job_id job m :
  jobs m !! job_id = Some job ->
  let m' := ConvertQueue.cleanup_job now job_id m in
  log m' = log m ++ [EvStatus job (Job.status (heap m job)) JobStatus.cleaned] /\
  Job.status (heap m' job) = JobStatus.cleaned /\
  Job.outfile_path (heap m' job) = None /\
  Job.finished_at (heap m' job) = Some (float_or (Job.finished_at (heap m job)) now) /\
  (forall l, l <> job -> heap m' l = heap m l).
Proof.
  intros Hreg. cbn zeta. unfold ConvertQueue.cleanup_job. rewrite Hreg.
  rewrite drop_pending_log, drop_pending_heap. simpl.
  destruct (decide (job = job)) as [_|Hne]; [|congruence]. simpl.
  split; [reflexivity|]. split; [reflexivity|]. split; [reflexivity|].
  split; [reflexivity|].
  intros l Hl. destruct (decide (l = job)); [contradiction | reflexivity].
Qed.

Lemma cleanup_job_unregistered now job_id m :
  jobs m !! job_id = None -> ConvertQueue.cleanup_job now job_id m = m.
Proof. intros Hreg. unfold ConvertQueue.cleanup_job. now rewrite Hreg. Qed.

Lemma evict_old_jobs_touches_no_job cfg now m :
  log (ConvertQueue.evict_old_jobs cfg now m) = log m /\
  heap (ConvertQueue.evict_old_jobs cfg now m) = heap m.
Proof.
  unfold ConvertQueue.evict_old_jobs.
  destruct (JOB_RECORD_TTL_SECONDS cfg <=? 0); split; reflexivity.
Qed.


(** The assignments of the queued path and of the reclaiming, exactly:
    [run_job] takes a job that is [queued] when its gate slot is granted
    to [running] and then to [done] or to [failed], with no other change
    of status, and so does [convert_sync] with the job it creates;
    [cleanup_job] takes the job registered under its argument to [cleaned]
    whatever the status was, touches no other job, and does nothing for an
    unknown id; the eviction sweep changes no job at all. *)
Lemma queued_path_and_reclaiming {W : Type}
  (runner : Job.t -> W -> result string * W) (loop_time : W -> Q)
  (cfg : Config) (now : Q) (m : Mem) (w : W) :
  (forall job,
      Job.status (heap m job) = JobStatus.queued ->
      let '(_, m', _) := run_job runner loop_time job m w in
      exists tr final,
        log m' = log m ++ tr /\
        (final = JobStatus.done \/ final = JobStatus.failed) /\
        status_writes tr =
          [(job, JobStatus.queued, JobStatus.running); (job, JobStatus.running, final)] /\
        Job.status (heap m' job) = final) /\
  (forall uuid4 filename convert_to,
      let job := next_loc m in
      let '(_, m', _) := convert_sync runner cfg uuid4 filename convert_to m w in
      exists tr final,
        log m' = log m ++ tr /\
        (final = JobStatus.done \/ final = JobStatus.failed) /\
        status_writes tr =
          [(job, JobStatus.queued, JobStatus.running); (job, JobStatus.running, final)] /\
        Job.status (heap m' job) = final) /\
  (forall job_id job,
      jobs m !! job_id = Some job ->
      let m' := ConvertQueue.cleanup_job now job_id m in
      log m' = log m ++ [EvStatus job (Job.status (heap m job)) JobStatus.cleaned] /\
      Job.status (heap m' job) = JobStatus.cleaned /\
      (forall l, l <> job -> heap m' l = heap m l)) /\
  (forall job_id,
      jobs m !! job_id = None -> ConvertQueue.cleanup_job now job_id m = m) /\
  (let m' := ConvertQueue.evict_old_jobs cfg now m in
   log m' = log m /\ heap m' = heap m).
Proof.
  split; [|split; [|split; [|split]]].
  - intros job Hq. pose proof (run_job_status_writes runner loop_time job m w) as Hrun.
    destruct (run_job runner loop_time job m w) as [[r m'] w'].
    rewrite Hq in Hrun. exact Hrun.
  - intros uuid4 filename convert_to.
    apply (convert_sync_status_writes runner cfg uuid4 filename convert_to m w).
  - intros job_id job Hreg.
    destruct (cleanup_job_registered now job_id job m Hreg) as (Hl & Hs & _ & _ & Hframe).
    cbn zeta. auto.
  - intros job_id. apply cleanup_job_unregistered.
  - apply evict_old_jobs_touches_no_job.
Qed.

(** A job cleaned while it waits for its slot is [running] again once
    [run_job] starts, and [run_job] replaces the [finished_at] that
    [cleanup_job] recorded. *)
Example run_job_after_cleanup :
  let m0 := ConvertQueue.enqueue default_config 0%nat one_job in
  let m1 := ConvertQueue.cleanup_job 7 "job-1" m0 in
  let w := Main.mkWorld [converter_writes "report.pdf"] [] 9 in
  let '(_, m2, _) := run_job (Main.runner default_config) Main.clock 0%nat m1 w in
  Job.status (heap m1 0%nat) = JobStatus.cleaned /\
  Job.finished_at (heap m1 0%nat) = Some 7%Q /\
  status_writes (log m2) =
    [(0%nat, JobStatus.queued, JobStatus.queued);
     (0%nat, JobStatus.queued, JobStatus.cleaned);
     (0%nat, JobStatus.cleaned, JobStatus.running);
     (0%nat, JobStatus.running, JobStatus.done)] /\
  Job.finished_at (heap m2 0%nat) = Some 9%Q.
Proof. vm_compute. repeat split; reflexivity. Qed.

(** ** The process runner *)

Section Runner.

Import Converter.

Variable CONVERT_TIMEOUT : Z.
Variables input_path output_dir : string.
Variable convert_to : option string.

Let profile_dir := Py.join output_dir "lo_profile".

Let launch (os : OS) : list Action :=
  [ Makedirs output_dir; Makedirs profile_dir;
    Spawn (soffice_args os profile_dir input_path output_dir convert_to);
    Communicate CONVERT_TIMEOUT ].

Lemma find_output_pdf_none names :
  (forall name, name ∈ names -> pdf_for input_path name = false) ->
  _find_output_pdf input_path output_dir names = None.
Proof.
  intros Hnone. unfold _find_output_pdf.
  destruct (List.find _ names) as [name|] eqn:Hfind; [|reflexivity].
  apply find_some in Hfind as [Hin Hm].
  apply list_elem_of_In, Hnone in Hin. unfold pdf_for in Hin. congruence.
Qed.

Lemma find_output_pdf_first before name after :
  (forall x, x ∈ before -> pdf_for input_path x = false) ->
  pdf_for input_path name = true ->
  _find_output_pdf input_path output_dir (before ++ name :: after) =
  Some (Py.join output_dir name).
Proof.
  intros Hbefore Hname. unfold _find_output_pdf.
  induction before as [|x before IH]; simpl.
  - unfold pdf_for in Hname. now rewrite Hname.
  - assert (pdf_for input_path x = false) as Hx by (apply Hbefore; left).
    unfold pdf_for in Hx. rewrite Hx. apply IH.
    intros y Hy. apply Hbefore. now right.
Qed.

Lemma isabs_inv a : Py.isabs a = true -> exists a', a = String "/" a'.
Proof.
  unfold Py.isabs, Py.startswith. destruct a as [|c a]; [discriminate|].
  unfold String.prefix. destruct (ascii_dec "/" c) as [<-|]; [|discriminate].
  intros _. now exists a.
Qed.

Lemma isabs_cons a : Py.isabs (String "/" a) = true.
Proof.
  unfold Py.isabs, Py.startswith, String.prefix.
  destruct (ascii_dec "/" "/"); [now destruct a | congruence].
Qed.

Lemma isabs_join a b : Py.isabs a = true -> Py.isabs (Py.join a b) = true.
Proof.
  intros Ha. apply isabs_inv in Ha as [a' ->]. unfold Py.join.
  destruct (Py.startswith "/" b) eqn:Hb; [exact Hb|].
  destruct (_ || _); apply isabs_cons.
Qed.

(** C5, amended.  When the process exits with status 0: if no name of the
    output directory starts with the input's base name and ends, in lower
    case, with [.pdf], whatever the target format, the call raises
    [RuntimeError] with "Output file not created: " and the captured text
    (standard error, else standard output, else "No output produced",
    stripped); otherwise it returns the output directory joined with the
    first such name of the listing, an absolute path when the output
    directory is one. *)
Theorem exit_zero_finds_first_pdf_or_fails (os : OS) (stdout_text stderr_text : string) :
  communicate os = Exited 0 stdout_text stderr_text ->
  let r := (run_libreoffice_convert CONVERT_TIMEOUT input_path output_dir convert_to os).2 in
  ((forall name, name ∈ listdir os -> pdf_for input_path name = false) ->
   r = Raise (RuntimeError
                ("Output file not created: " +:+
                 Py.strip (str_or stderr_text (str_or stdout_text "No output produced"))))) /\
  (forall before name after,
      listdir os = before ++ name :: after ->
      (forall x, x ∈ before -> pdf_for input_path x = false) ->
      pdf_for input_path name = true ->
      r = Ok (Py.join output_dir name) /\
      (Py.isabs output_dir = true -> Py.isabs (Py.join output_dir name) = true)).
Proof.
  intros Hexit. cbn zeta. unfold run_libreoffice_convert. rewrite Hexit.
  split.
  - intros Hnone. simpl. now rewrite (find_output_pdf_none _ Hnone).
  - intros before name after Hls Hbefore Hname. split; [|apply isabs_join].
    simpl. rewrite Hls, (find_output_pdf_first _ _ _ Hbefore Hname). reflexivity.
Qed.

(** C2, amended.  When the deadline passes before the process exits, the
    runner signals [SIGTERM], waits 5 seconds and, the process still
    alive, signals [SIGKILL] and waits 3 seconds more: to the process
    group when its id is known, is not 0 and [os.killpg] exists, to the
    process alone otherwise.  A signal that finds the process gone
    ([ProcessLookupError]) counts as sent.  When each signal is delivered
    or finds the process gone, the runner raises
    [RuntimeError("Conversion timed out")], whether or not the process
    dies.  When a signal call raises any other error, that error is what
    the runner raises, in place of the timeout error.  The profile
    directory is removed last in every case. *)
Theorem timeout_escalates_and_raises (os : OS) :
  communicate os = TimeoutError ->
  let '(actions, r) :=
    run_libreoffice_convert CONVERT_TIMEOUT input_path output_dir convert_to os in
  (delivered_or_gone (send_SIGTERM os) ->
   (wait_after_SIGTERM os = false -> delivered_or_gone (send_SIGKILL os)) ->
   r = Raise (RuntimeError "Conversion timed out") /\
   (forall pgid,
       getpgid os = Ok pgid -> pgid <> 0 -> has_killpg os = true ->
       actions =
         launch os ++ [Getpgid; Killpg pgid SIGTERM; Wait 5] ++
         (if wait_after_SIGTERM os then [] else [Killpg pgid SIGKILL; Wait 3]) ++
         [Rmtree profile_dir]) /\
   (has_killpg os = false \/ (forall pgid, getpgid os = Ok pgid -> pgid = 0) ->
    actions =
      launch os ++ [Getpgid; Terminate; Wait 5] ++
      (if wait_after_SIGTERM os then [] else [Kill; Wait 3]) ++
      [Rmtree profile_dir])) /\
  (forall e,
      (forall msg, e <> ProcessLookupError msg) ->
      send_SIGTERM os = Raise e \/
      (delivered_or_gone (send_SIGTERM os) /\ wait_after_SIGTERM os = false /\
       send_SIGKILL os = Raise e) ->
      r = Raise e /\ last actions = Some (Rmtree profile_dir)).
Proof.
  intros Hto. unfold run_libreoffice_convert, on_timeout, signal_step.
  rewrite Hto. unfold delivered_or_gone.
  destruct (getpgid os) as [pgid|eg] eqn:Hpg;
    try (destruct (Z.eqb_spec pgid 0) as [Hz|Hnz]; unfold truthy;
         [ rewrite Hz
         | rewrite (proj2 (Z.eqb_neq pgid 0) Hnz) ]);
    destruct (has_killpg os) eqn:Hk;
    destruct (send_SIGTERM os) as [[]|[m1|m1|c1 m1|c1 m1]];
    destruct (wait_after_SIGTERM os);
    destruct (send_SIGKILL os) as [[]|[m2|m2|c2 m2|c2 m2]]; simpl;
    (split;
     [ intros Hterm Hkill;
       try (destruct Hterm as [Hterm|[? Hterm]]; discriminate Hterm);
       try (destruct (Hkill eq_refl) as [Hkill'|[? Hkill']]; discriminate Hkill');
       (split; [reflexivity|]);
       (split;
        [ intros p Hp Hnz' Hk'; try discriminate; injection Hp as <-;
          try reflexivity; try contradiction
        | intros [Hk'|Hz']; try discriminate; try reflexivity;
          try (specialize (Hz' _ eq_refl); contradiction) ])
     | intros e Hnot [Hterm | (Hterm & Hwait & Hkill)];
       try discriminate;
       try (injection Hterm as <-); try (injection Hkill as <-);
       try (exfalso; now apply (Hnot m1)); try (exfalso; now apply (Hnot m2));
       try (destruct Hterm as [Hterm|[? Hterm]]; discriminate Hterm);
       (split; reflexivity) ]).
Qed.

End Runner.

(** C5 as stated fails: asked for [docx], the converter exits with status
    0 and leaves [report.docx], the input's base name with the extension
    of the target format, and the call fails all the same. *)
Lemma output_of_another_format_is_not_found :
  let os := converter_writes "report.docx" in
  "report" +:+ expected_extension (Some "docx") ∈ Converter.listdir os /\
  Converter.communicate os = Converter.Exited 0 "" "" /\
  (Converter.run_libreoffice_convert 600 "/tmp/o2pdata/job-1/input/report.odt"
     "/tmp/o2pdata/job-1" (Some "docx") os).2
  = Raise (RuntimeError "Output file not created: No output produced").
Proof.
  cbn zeta. split; [|split]; [|reflexivity|reflexivity].
  vm_compute. right. left.
Qed.

Lemma exit_zero_finds_first_pdf_or_fails_witness :
  (Converter.run_libreoffice_convert 600 "/tmp/o2pdata/job-1/input/report.docx"
     "/tmp/o2pdata/job-1" None (converter_writes "report.pdf")).2
  = Ok "/tmp/o2pdata/job-1/report.pdf" /\
  (Converter.run_libreoffice_convert 600 "/tmp/o2pdata/job-1/input/report.docx"
     "/tmp/o2pdata/job-1" None (converter_writes "notes.txt")).2
  = Raise (RuntimeError "Output file not created: No output produced").
Proof.
  split.
  - refine (proj1 (proj2 (exit_zero_finds_first_pdf_or_fails 600
                     "/tmp/o2pdata/job-1/input/report.docx" "/tmp/o2pdata/job-1" None
                     (converter_writes "report.pdf") "" "" eq_refl)
                   ["input"] "report.pdf" [] eq_refl _ eq_refl)).
    intros x Hx. apply list_elem_of_In in Hx. destruct Hx as [<-|[]]. reflexivity.
  - refine (proj1 (exit_zero_finds_first_pdf_or_fails 600
                     "/tmp/o2pdata/job-1/input/report.docx" "/tmp/o2pdata/job-1" None
                     (converter_writes "notes.txt") "" "" eq_refl) _).
    intros x Hx. apply list_elem_of_In in Hx. destruct Hx as [<-|[<-|[]]]; reflexivity.
Defined.

Lemma timeout_escalates_and_raises_witness :
  let '(actions, r) :=
    Converter.run_libreoffice_convert 600 "/tmp/o2pdata/job-1/input/report.docx"
      "/tmp/o2pdata/job-1" None converter_hangs in
  r = Raise (RuntimeError "Conversion timed out") /\
  actions =
    [ Converter.Makedirs "/tmp/o2pdata/job-1";
      Converter.Makedirs "/tmp/o2pdata/job-1/lo_profile";
      Converter.Spawn
        (Converter.soffice_args converter_hangs "/tmp/o2pdata/job-1/lo_profile"
           "/tmp/o2pdata/job-1/input/report.docx" "/tmp/o2pdata/job-1" None);
      Converter.Communicate 600; Converter.Getpgid;
      Converter.Killpg 4242 Converter.SIGTERM; Converter.Wait 5;
      Converter.Killpg 4242 Converter.SIGKILL; Converter.Wait 3;
      Converter.Rmtree "/tmp/o2pdata/job-1/lo_profile" ].
Proof.
  pose proof (timeout_escalates_and_raises 600 "/tmp/o2pdata/job-1/input/report.docx"
                "/tmp/o2pdata/job-1" None converter_hangs eq_refl) as H.
  destruct (Converter.run_libreoffice_convert _ _ _ _ _) as [actions r].
  destruct H as [H _].
  destruct (H (or_introl eq_refl)
              (fun _ => or_intror (ex_intro _ "[Errno 3] No such process" eq_refl)))
    as (Hr & Hgroup & _).
  split; [exact Hr|].
  apply (Hgroup 4242); [reflexivity | discriminate | reflexivity].
Defined.

(** C2 as stated fails: the process outlives the deadline and a signal
    cannot be sent for a reason other than the process being gone, be it
    the [SIGKILL] after a delivered [SIGTERM] or the [SIGTERM] itself; the
    runner then raises the error of the signal call, and not the timeout
    error. *)
Lemma failed_kill_replaces_the_timeout :
  let run os :=
    Converter.run_libreoffice_convert 600 "/tmp/o2pdata/job-1/input/report.docx"
      "/tmp/o2pdata/job-1" None os in
  let denied := OtherError "PermissionError" "[Errno 1] Operation not permitted" in
  Converter.communicate converter_unkillable = Converter.TimeoutError /\
  Converter.send_SIGTERM converter_unkillable = Ok tt /\
  Converter.send_SIGKILL converter_unkillable = Raise denied /\
  (run converter_unkillable).2 = Raise denied /\
  (run converter_unkillable).2 <> Raise (RuntimeError "Conversion timed out") /\
  (run converter_unkillable).1 =
    [ Converter.Makedirs "/tmp/o2pdata/job-1";
      Converter.Makedirs "/tmp/o2pdata/job-1/lo_profile";
      Converter.Spawn
        (Converter.soffice_args converter_unkillable "/tmp/o2pdata/job-1/lo_profile"
           "/tmp/o2pdata/job-1/input/report.docx" "/tmp/o2pdata/job-1" None);
      Converter.Communicate 600; Converter.Getpgid;
      Converter.Killpg 4242 Converter.SIGTERM; Converter.Wait 5;
      Converter.Killpg 4242 Converter.SIGKILL;
      Converter.Rmtree "/tmp/o2pdata/job-1/lo_profile" ] /\
  Converter.communicate converter_untouchable = Converter.TimeoutError /\
  Converter.send_SIGTERM converter_untouchable = Raise denied /\
  (run converter_untouchable).2 = Raise denied.
Proof. cbn zeta. repeat split; try reflexivity. discriminate. Qed.

(** ** The registry: creation and lookup *)

(** X1.  A new job is found under its identifier, in its initial state; the
    other identifiers and the existing jobs are as before. *)
Theorem create_job_then_get (cfg : Config) (uuid4 infile_path : string)
  (convert_to : option string) (m : Mem) :
  let '(job, m') := ConvertQueue.create_job cfg uuid4 infile_path convert_to m in
  ConvertQueue.get uuid4 m' = Some job /\
  heap m' job =
    Job.mk uuid4 infile_path (Py.join (DATA_DIR cfg) uuid4) convert_to
           JobStatus.queued None None 0 (MAX_RETRIES cfg) None /\
  (forall other, other <> uuid4 -> ConvertQueue.get other m' = ConvertQueue.get other m) /\
  (forall l, l <> job -> heap m' l = heap m l) /\
  job = next_loc m /\ next_loc m' = S job /\
  pending m' = pending m /\ ConvertQueue.waiting_count uuid4 m' = ConvertQueue.waiting_count uuid4 m.
Proof.
  unfold ConvertQueue.create_job, ConvertQueue.get, ConvertQueue.waiting_count. simpl.
  split; [apply lookup_insert_eq|].
  split; [destruct (decide (next_loc m = next_loc m)); [reflexivity | congruence]|].
  split; [intros other Hne; now apply lookup_insert_ne|].
  split; [|repeat split].
  intros l Hne. destruct (decide (l = next_loc m)); [contradiction | reflexivity].
Qed.

(** ** The pending list *)

Lemma index_lookup (x : string) (l : list string) (i : nat) :
  ConvertQueue.index x l = Some i <->
  l !! i = Some x /\ forall j, (j < i)%nat -> l !! j <> Some x.
Proof.
  revert i. induction l as [|y l IH]; intros i; simpl.
  - split; [discriminate | intros [H _]; discriminate].
  - destruct (decide (y = x)) as [->|Hne].
    + split.
      * intros [= <-]. split; [reflexivity | intros j Hj; lia].
      * intros [Hi Hfirst]. destruct i as [|i]; [reflexivity|].
        exfalso. apply (Hfirst 0%nat); [lia | reflexivity].
    + split.
      * intros H. apply fmap_Some in H as (k & Hk & ->).
        apply IH in Hk as [Hk Hfirst]. split; [exact Hk|].
        intros [|j] Hj; simpl; [congruence | apply Hfirst; lia].
      * intros [Hi Hfirst]. destruct i as [|i]; simpl in Hi; [congruence|].
        apply fmap_Some. exists i. split; [|reflexivity].
        apply IH. split; [exact Hi|]. intros j Hj. apply (Hfirst (S j)). lia.
Qed.

Lemma index_None (x : string) (l : list string) :
  ConvertQueue.index x l = None <-> x ∉ l.
Proof.
  induction l as [|y l IH]; simpl.
  - split; [intros _ H; inversion H | reflexivity].
  - destruct (decide (y = x)) as [->|Hne].
    + split; [discriminate | intros H; exfalso; apply H; left].
    + rewrite not_elem_of_cons. destruct (ConvertQueue.index x l); simpl.
      * split; [discriminate|]. intros [_ H]. now apply IH in H.
      * split; [|reflexivity]. intros _. split; [congruence | now apply IH].
Qed.

(** X2.  The position [waiting_count] reports is the index of the first
    occurrence of the identifier in the pending list, and there is no
    position exactly when the identifier is not pending. *)
Theorem waiting_count_is_first_position (job_id : string) (m : Mem) :
  (forall i,
      ConvertQueue.waiting_count job_id m = Some i <->
      pending m !! i = Some job_id /\
      forall j, (j < i)%nat -> pending m !! j <> Some job_id) /\
  (ConvertQueue.waiting_count job_id m = None <-> job_id ∉ pending m).
Proof.
  unfold ConvertQueue.waiting_count. split; [intros i; apply index_lookup | apply index_None].
Qed.

Lemma index_app_fresh (x : string) (l : list string) :
  x ∉ l -> ConvertQueue.index x (l ++ [x]) = Some (length l).
Proof.
  induction l as [|y l IH]; simpl; intros Hnin.
  - now rewrite decide_True.
  - apply not_elem_of_cons in Hnin as [Hne Hnin].
    rewrite decide_False by congruence. now rewrite IH.
Qed.

Lemma index_app_other (x y : string) (l : list string) :
  y <> x -> ConvertQueue.index y (l ++ [x]) = ConvertQueue.index y l.
Proof.
  intros Hne. induction l as [|z l IH]; simpl.
  - now rewrite decide_False by congruence.
  - destruct (decide (z = y)); [reflexivity | now rewrite IH].
Qed.

(** X3.  [enqueue] admits a job exactly when the queue is unbounded
    ([MAX_QUEUE_SIZE = 0]) or holds fewer than [MAX_QUEUE_SIZE]
    identifiers; an admitted job that was not pending goes to the end of
    the list, is [queued], and waits behind all the jobs already pending,
    whose positions do not change. *)
Theorem enqueue_admits_at_the_end (cfg : Config) (job : loc) (m : Mem) :
  let job_id := Job.id (heap m job) in
  let m' := ConvertQueue.enqueue cfg job m in
  MAX_QUEUE_SIZE cfg = 0 \/ Z.of_nat (length (pending m)) < MAX_QUEUE_SIZE cfg ->
  job_id ∉ pending m ->
  pending m' = pending m ++ [job_id] /\
  Job.status (heap m' job) = JobStatus.queued /\
  ConvertQueue.waiting_count job_id m' = Some (length (pending m)) /\
  (forall other, other <> job_id ->
     ConvertQueue.waiting_count other m' = ConvertQueue.waiting_count other m).
Proof.
  cbn zeta. intros Hroom Hfresh. unfold ConvertQueue.enqueue, truthy.
  assert ((negb (MAX_QUEUE_SIZE cfg =? 0) &&
           (MAX_QUEUE_SIZE cfg <=? Z.of_nat (length (pending m)))) = false) as ->.
  { destruct Hroom as [-> | Hlt]; [reflexivity|].
    rewrite andb_false_iff. right. now apply Z.leb_gt. }
  rewrite bool_decide_eq_false_2 by exact Hfresh.
  unfold ConvertQueue.waiting_count. simpl.
  destruct (decide (job = job)); [|congruence]. simpl.
  split; [reflexivity|]. split; [reflexivity|].
  split; [now apply index_app_fresh | intros other Hne; now apply index_app_other].
Qed.

Lemma enqueue_admits_at_the_end_witness :
  let m' := ConvertQueue.enqueue default_config 0%nat one_job in
  pending m' = [] ++ ["job-1"] /\
  Job.status (heap m' 0%nat) = JobStatus.queued /\
  ConvertQueue.waiting_count "job-1" m' = Some 0%nat /\
  (forall other, other <> "job-1" ->
     ConvertQueue.waiting_count other m' = ConvertQueue.waiting_count other one_job).
Proof.
  exact (enqueue_admits_at_the_end default_config 0%nat one_job
           (or_intror eq_refl) (not_elem_of_nil _)).
Defined.

(** X4.  [enqueue] never lets the pending list grow past a positive
    [MAX_QUEUE_SIZE], and never puts an identifier on it twice. *)
Theorem enqueue_keeps_the_bound (cfg : Config) (job : loc) (m : Mem) :
  let m' := ConvertQueue.enqueue cfg job m in
  (0 < MAX_QUEUE_SIZE cfg ->
   Z.of_nat (length (pending m)) <= MAX_QUEUE_SIZE cfg ->
   Z.of_nat (length (pending m')) <= MAX_QUEUE_SIZE cfg) /\
  (NoDup (pending m) -> NoDup (pending m')) /\
  (MAX_QUEUE_SIZE cfg < 0 -> pending m' = pending m /\
                             Job.status (heap m' job) = JobStatus.failed).
Proof.
  cbn zeta.
  assert (pending (ConvertQueue.enqueue cfg job m) = pending m \/
          (Z.of_nat (length (pending m)) < MAX_QUEUE_SIZE cfg \/ MAX_QUEUE_SIZE cfg = 0) /\
          (Job.id (heap m job) ∉ pending m) /\
          pending (ConvertQueue.enqueue cfg job m) = pending m ++ [Job.id (heap m job)])
    as Hcases.
  { unfold ConvertQueue.enqueue, truthy.
    destruct (Z.eqb_spec (MAX_QUEUE_SIZE cfg) 0) as [Hz|Hnz]; simpl.
    - destruct (decide (Job.id (heap m job) ∈ pending m)) as [Hin|Hnin].
      + rewrite bool_decide_eq_true_2 by exact Hin. now left.
      + rewrite bool_decide_eq_false_2 by exact Hnin. right. simpl. auto.
    - destruct (Z.leb_spec (MAX_QUEUE_SIZE cfg) (Z.of_nat (length (pending m))))
        as [Hfull|Hroom]; [now left|].
      destruct (decide (Job.id (heap m job) ∈ pending m)) as [Hin|Hnin].
      + rewrite bool_decide_eq_true_2 by exact Hin. now left.
      + rewrite bool_decide_eq_false_2 by exact Hnin. right. simpl. auto. }
  split; [|split].
  - intros Hpos Hlen. destruct Hcases as [-> | ([Hroom|Hz] & _ & ->)]; [exact Hlen | | lia].
    rewrite length_app. simpl. lia.
  - intros Hnd. destruct Hcases as [-> | (_ & Hnin & ->)]; [exact Hnd|].
    apply NoDup_app. split; [exact Hnd|]. split; [|apply NoDup_singleton].
    intros x Hx Hx'. apply list_elem_of_singleton in Hx'. subst x. contradiction.
  - intros Hneg. unfold ConvertQueue.enqueue, truthy.
    destruct (Z.eqb_spec (MAX_QUEUE_SIZE cfg) 0) as [Hz|Hnz]; [lia|].
    destruct (Z.leb_spec (MAX_QUEUE_SIZE cfg) (Z.of_nat (length (pending m))))
      as [Hfull|Hroom]; [|lia].
    simpl. split; [reflexivity|].
    destruct (decide (job = job)); [reflexivity | congruence].
Qed.

(** ** Leaving the pending list *)

Lemma list_remove_first (x : string) (l : list string) :
  x ∈ l ->
  exists before after,
    l = before ++ x :: after /\ (x ∉ before) /\ list_remove x l = Some (before ++ after).
Proof.
  induction l as [|y l IH]; intros Hin; [inversion Hin|]. simpl.
  destruct (decide (y = x)) as [->|Hne].
  - exists [], l. split; [reflexivity|]. split; [apply not_elem_of_nil | reflexivity].
  - apply elem_of_cons in Hin as [Heq|Hin]; [congruence|].
    destruct (IH Hin) as (before & after & -> & Hnin & ->).
    exists (y :: before), after. split; [reflexivity|]. split; [|reflexivity].
    apply not_elem_of_cons. split; [congruence | exact Hnin].
Qed.

Lemma drop_pending_without_first job_id m :
  without_first job_id (pending m) (pending (drop_pending job_id m)).
Proof.
  unfold drop_pending, without_first.
  destruct (decide (job_id ∈ pending m)) as [Hin|Hnin].
  - rewrite bool_decide_eq_true_2 by exact Hin. right.
    destruct (list_remove_first _ _ Hin) as (before & after & Hl & Hnin & Hrm).
    rewrite Hrm. exists before, after. auto.
  - rewrite bool_decide_eq_false_2 by exact Hnin. now left.
Qed.

Lemma without_first_NoDup x l l' :
  without_first x l l' -> NoDup l -> (x ∉ l') /\ NoDup l'.
Proof.
  intros [[Hnin ->] | (before & after & -> & Hnin & ->)] Hnd; [now split|].
  apply NoDup_app in Hnd as (Hb & Hdisj & Ha). apply NoDup_cons in Ha as [Hxa Ha].
  split.
  - rewrite elem_of_app. tauto.
  - apply NoDup_app. split; [exact Hb|]. split; [|exact Ha].
    intros y Hy Hy'. apply (Hdisj y Hy). now right.
Qed.

Lemma drop_pending_fields job_id m :
  jobs (drop_pending job_id m) = jobs m /\ next_loc (drop_pending job_id m) = next_loc m /\
  tasks (drop_pending job_id m) = tasks m.
Proof.
  unfold drop_pending. destruct (bool_decide _); [|now repeat split].
  destruct (list_remove _ _); now repeat split.
Qed.

(** X5.  Once [run_job] has its slot the job's identifier leaves the pending
    list (its first occurrence, the only one when the list has no
    duplicates), the other identifiers keep their order, and the registry
    is as before; this holds however the conversion ends. *)
Theorem run_job_leaves_the_queue {W : Type}
  (runner : Job.t -> W -> result string * W) (loop_time : W -> Q)
  (job : loc) (m : Mem) (w : W) :
  let job_id := Job.id (heap m job) in
  let '(_, m', _) := run_job runner loop_time job m w in
  without_first job_id (pending m) (pending m') /\
  (NoDup (pending m) ->
   ConvertQueue.waiting_count job_id m' = None /\ NoDup (pending m')) /\
  jobs m' = jobs m.
Proof.
  cbn zeta. unfold run_job. unfold_M. simpl heap.
  pose proof (drop_pending_without_first (Job.id (heap m job)) (emit (EvAcquire job) m))
    as Hdrop.
  pose proof (drop_pending_fields (Job.id (heap m job)) (emit (EvAcquire job) m))
    as (Hjobs & _ & _).
  match goal with
  | |- context [_attempt_with_retries runner job ?ms w] =>
      destruct (_attempt_with_retries runner job ms w) as [[[out|e] m1] w1] eqn:Hatt;
      apply attempt_with_retries_trace in Hatt as (tr & _ & _ & Hsame & _);
      destruct Hsame as (_ & _ & Hj & Hp & _); simpl in Hj, Hp
  end; simpl; rewrite Hp, Hj, Hjobs; simpl;
    (split; [exact Hdrop|]); (split; [|reflexivity]);
    intros Hnd; destruct (without_first_NoDup _ _ _ Hdrop Hnd) as [Hnin Hnd'];
    (split; [|exact Hnd']); unfold ConvertQueue.waiting_count; simpl; rewrite Hp;
    now apply index_None.
Qed.

(** ** The gate *)

Lemma gate_events_app tr1 tr2 :
  gate_events (tr1 ++ tr2) = gate_events tr1 ++ gate_events tr2.
Proof. unfold gate_events. apply List.filter_app. Qed.

Lemma retry_trace_no_gate job old attempts last_err tr r :
  retry_trace job old attempts last_err tr r -> gate_events tr = [].
Proof. induction 1; simpl; auto. Qed.

Lemma last_framed {A} (a b c d : A) (tr : list A) :
  last (a :: b :: tr ++ [c; d]) = Some d.
Proof.
  replace (a :: b :: tr ++ [c; d]) with ((a :: b :: tr ++ [c]) ++ [d]);
    [apply last_snoc|].
  simpl. now rewrite <- app_assoc.
Qed.

(** X6.  [run_job] and [convert_sync] each take one gate slot for their job and
    give it back, whether the conversion succeeds, the retries are
    exhausted, or, for [convert_sync], the call ends by raising. *)
Theorem gate_slot_is_always_released {W : Type}
  (runner : Job.t -> W -> result string * W) (loop_time : W -> Q) (cfg : Config)
  (m : Mem) (w : W) :
  (forall job,
      let '(_, m', _) := run_job runner loop_time job m w in
      exists tr, log m' = log m ++ tr /\
                 gate_events tr = [EvAcquire job; EvRelease job] /\
                 last tr = Some (EvRelease job)) /\
  (forall uuid4 filename convert_to,
      let '(_, m', _) := convert_sync runner cfg uuid4 filename convert_to m w in
      exists tr, log m' = log m ++ tr /\
                 gate_events tr = [EvAcquire (next_loc m); EvRelease (next_loc m)] /\
                 last tr = Some (EvRelease (next_loc m))).
Proof.
  split.
  - intros job. unfold run_job. unfold_M. simpl heap.
    match goal with
    | |- context [_attempt_with_retries runner job ?ms w] =>
        destruct (_attempt_with_retries runner job ms w) as [[[out|e] m1] w1] eqn:Hatt;
        apply attempt_with_retries_trace in Hatt as (tr & Hlog & Htr & _ & _);
        apply retry_trace_no_gate in Htr; revert Hlog
    end; simpl; rewrite drop_pending_log; simpl; intros Hlog; rewrite Hlog.
    + eexists (_ :: _ :: tr ++ [_; EvRelease job]).
      split; [simpl; rewrite <- !app_assoc; simpl; reflexivity|].
      split; [simpl; rewrite gate_events_app, Htr; reflexivity|].
      apply last_framed.
    + eexists (_ :: _ :: tr ++ [_; EvRelease job]).
      split; [simpl; rewrite <- !app_assoc; simpl; reflexivity|].
      split; [simpl; rewrite gate_events_app, Htr; reflexivity|].
      apply last_framed.
  - intros uuid4 filename convert_to.
    unfold convert_sync, ConvertQueue.create_job. unfold_M. simpl heap.
    match goal with
    | |- context [_attempt_with_retries runner ?l ?ms w] =>
        destruct (_attempt_with_retries runner l ms w) as [[[out|e] m1] w1] eqn:Hatt;
        apply attempt_with_retries_trace in Hatt as (tr & Hlog & Htr & _ & _);
        apply retry_trace_no_gate in Htr; revert Hlog
    end; simpl; intros Hlog; rewrite Hlog.
    + eexists (_ :: _ :: tr ++ [_; EvRelease (next_loc m)]).
      split; [simpl; rewrite <- !app_assoc; simpl; reflexivity|].
      split; [simpl; rewrite gate_events_app, Htr; reflexivity|].
      apply last_framed.
    + eexists (_ :: _ :: tr ++ [_; EvRelease (next_loc m)]).
      split; [simpl; rewrite <- !app_assoc; simpl; reflexivity|].
      split; [simpl; rewrite gate_events_app, Htr; reflexivity|].
      apply last_framed.
Qed.

(** ** What the retry loop leaves alone, and its cooldowns *)

Lemma attempt_loop_other_jobs {W : Type} (runner : Job.t -> W -> result string * W)
  (job : loc) (attempts : list Z) :
  forall last_err m w r m' w',
    attempt_loop runner job attempts last_err m w = (r, m', w') ->
    forall l, l <> job -> heap m' l = heap m l.
Proof.
  induction attempts as [|attempt rest IH]; intros last_err m w r m' w' Hrun l Hne.
  - simpl in Hrun. unfold_M. now injection Hrun as <- <- <-.
  - simpl in Hrun. unfold_M. unfold _run_once in Hrun.
    destruct (runner (heap (set_retries job attempt m) job) w) as [[out|e] w1].
    + injection Hrun as <- <- <-. simpl.
      destruct (decide (l = job)); [contradiction | reflexivity].
    + rewrite (IH _ _ _ _ _ _ Hrun l Hne). simpl.
      destruct (decide (l = job)); [contradiction | reflexivity].
Qed.

Lemma only_retries_differ (j j' : Job.t) :
  Job.set_retries 0 j' = Job.set_retries 0 j -> j' = Job.set_retries (Job.retries j') j.
Proof.
  destruct j, j'. unfold Job.set_retries. simpl. intros H. injection H as -> -> -> -> -> -> -> -> ->.
  reflexivity.
Qed.

(** X7.  The retry loop changes nothing but the [retries] of its own job: that
    job keeps every other field (status, message, paths, [max_retries],
    [finished_at]), every other job is untouched, and so are the registry
    and the pending list. *)
Theorem retry_loop_changes_only_retries {W : Type}
  (runner : Job.t -> W -> result string * W) (job : loc) (m : Mem) (w : W) :
  let '(_, m', _) := _attempt_with_retries runner job m w in
  heap m' job = Job.set_retries (Job.retries (heap m' job)) (heap m job) /\
  (forall l, l <> job -> heap m' l = heap m l) /\
  jobs m' = jobs m /\ pending m' = pending m /\ tasks m' = tasks m.
Proof.
  destruct (_attempt_with_retries runner job m w) as [[r m'] w'] eqn:Hrun.
  pose proof Hrun as Hrun'.
  apply attempt_with_retries_trace in Hrun as (tr & _ & _ & (Hheap & _ & Hj & Hp & Ht) & _).
  split; [apply only_retries_differ, Hheap|].
  split; [|auto].
  unfold _attempt_with_retries in Hrun'. unfold_M.
  exact (attempt_loop_other_jobs runner job _ _ _ _ _ _ _ Hrun').
Qed.

Lemma failures_all (calls : list (Job.t * result string)) :
  Forall (fun c : Job.t * result string => exists e', c.2 = Raise e') calls ->
  failures calls = length calls.
Proof.
  unfold failures. induction 1 as [|c calls [e' Hc] _ IH]; [reflexivity|].
  simpl. rewrite Hc. simpl. now rewrite IH.
Qed.

Lemma retry_trace_cooldowns job old attempts last_err tr r :
  retry_trace job old attempts last_err tr r ->
  cooldowns tr = failures (runner_calls tr) /\
  (forall out, r = Ok out -> S (cooldowns tr) = length (runner_calls tr)).
Proof.
  unfold cooldowns, failures.
  induction 1 as [old last_err
                 |old attempt rest last_err seen out Hseen
                 |old attempt rest last_err seen e tr r Hseen Htr [IH1 IH2]]; simpl.
  - split; [reflexivity | discriminate].
  - split; reflexivity.
  - fold (runner_calls tr). split; [now rewrite IH1|].
    intros out Hr. now rewrite (IH2 _ Hr).
Qed.

(** X8.  The retry loop cools down once after every failed attempt, the last one
    included: a loop that ends with a success at its [n]-th call has
    cooled down [n - 1] times, and a loop that gives up has cooled down
    [max_retries + 1] times, once more than there were attempts to space
    out. *)
Theorem one_cooldown_per_failure {W : Type}
  (runner : Job.t -> W -> result string * W) (job : loc) (m : Mem) (w : W) :
  let '(r, m', _) := _attempt_with_retries runner job m w in
  exists tr,
    log m' = log m ++ tr /\
    cooldowns tr = failures (runner_calls tr) /\
    match r with
    | Ok _ => S (cooldowns tr) = length (runner_calls tr)
    | Raise _ => cooldowns tr = Z.to_nat (Job.max_retries (heap m job) + 1)
    end.
Proof.
  destruct (_attempt_with_retries runner job m w) as [[r m'] w'] eqn:Hrun.
  apply attempt_with_retries_trace in Hrun as (tr & Hlog & Htr & _ & _).
  exists tr. split; [exact Hlog|].
  destruct (retry_trace_cooldowns _ _ _ _ _ _ Htr) as [Hcool Hok].
  split; [exact Hcool|].
  destruct r as [out|e]; [now apply (Hok out)|].
  destruct (retry_trace_outcome _ _ _ _ _ _ Htr) as (_ & _ & Hraise).
  destruct (Hraise e eq_refl) as (Hlen & Hall & _).
  rewrite Hcool, (failures_all _ Hall), Hlen. apply length_seqZ.
Qed.

(** ** The conversion endpoints *)

(** X9.  [convert_sync] answers with what the retry loop gave: on success the
    response is [done] with the download link of the new job, whose
    [outfile_path] is the path returned; on failure the call raises
    [HTTPException(500)] whose detail carries the text of the last error,
    which is also the job's [message], and the job is [failed] with no
    output path. *)
Theorem convert_sync_reports_the_retry_loop {W : Type}
  (runner : Job.t -> W -> result string * W) (cfg : Config)
  (uuid4 filename : string) (convert_to : option string) (m : Mem) (w : W) :
  let created := ConvertQueue.create_job cfg uuid4 "" convert_to m in
  let job := created.1 in
  let infile := Py.join (Py.join (Py.join (DATA_DIR cfg) uuid4) "input") filename in
  let started :=
    set_status job JobStatus.running
      (emit (EvAcquire job) (set_infile_path job infile created.2)) in
  let '(attempted, _, _) := _attempt_with_retries runner job started w in
  let '(r, m', _) := convert_sync runner cfg uuid4 filename convert_to m w in
  ConvertQueue.get uuid4 m' = Some job /\
  match attempted with
  | Ok out =>
      r = Ok (mkConvertResponse uuid4 JobStatus.done (Some ("/download/" +:+ uuid4))) /\
      Job.status (heap m' job) = JobStatus.done /\
      Job.outfile_path (heap m' job) = Some out /\
      Job.message (heap m' job) = None
  | Raise e =>
      r = Raise (HTTPException 500 ("Conversion failed: " +:+ str e)) /\
      Job.status (heap m' job) = JobStatus.failed /\
      Job.message (heap m' job) = Some (str e) /\
      Job.outfile_path (heap m' job) = None
  end.
Proof.
  cbn zeta. unfold convert_sync, ConvertQueue.create_job, ConvertQueue.get. unfold_M.
  simpl. destruct (decide (next_loc m = next_loc m)) as [_|Hne]; [|congruence]. simpl.
  match goal with
  | |- context [_attempt_with_retries runner ?l ?ms w] =>
      destruct (_attempt_with_retries runner l ms w) as [[[out|e] m1] w1] eqn:Hatt;
      apply attempt_with_retries_trace in Hatt as (tr & _ & _ & Hsame & _);
      pose proof (same_but_retries_fields _ _ l Hsame) as (Hid & _ & Hmsg & Hout & _ & _);
      destruct Hsame as (_ & _ & Hjobs & _); revert Hid Hmsg Hout Hjobs
  end; simpl; destruct (decide (next_loc m = next_loc m)) as [_|Hne];
    try congruence; simpl; intros Hid Hmsg Hout Hjobs; rewrite Hjobs, ?Hid;
    (split; [apply lookup_insert_eq|]); auto.
Qed.

Lemma join_relative (a b : string) :
  Py.startswith "/" b = false -> exists sep, Py.join a b = a +:+ sep +:+ b.
Proof.
  intros Hb. unfold Py.join. rewrite Hb.
  destruct (_ || _); [exists "" | exists "/"]; reflexivity.
Qed.

(** Once the upload is saved, both conversion endpoints store as the job's
    [infile_path] the join of the job's directory, [input] and the client's
    file name: a name that starts with a slash replaces the whole path, any
    other name is appended to the [input] directory of the job. *)
Lemma stored_path_once_saved {W : Type}
  (runner : Job.t -> W -> result string * W) (cfg : Config)
  (uuid4 filename : string) (convert_to : option string) (m : Mem) (w : W) :
  let job := next_loc m in
  let input_dir := Py.join (Py.join (DATA_DIR cfg) uuid4) "input" in
  let stored (m' : Mem) :=
    Job.outdir (heap m' job) = Py.join (DATA_DIR cfg) uuid4 /\
    Job.infile_path (heap m' job) = Py.join input_dir filename in
  (let '(_, m', _) := convert_async cfg uuid4 filename convert_to m w in stored m') /\
  (let '(_, m', _) := convert_sync runner cfg uuid4 filename convert_to m w in stored m') /\
  (Py.startswith "/" filename = true -> Py.join input_dir filename = filename) /\
  (Py.startswith "/" filename = false ->
   exists sep, Py.join input_dir filename = input_dir +:+ sep +:+ filename).
Proof.
  cbn zeta. split; [|split; [|split]].
  - unfold convert_async, ConvertQueue.create_job. unfold_M. simpl.
    destruct (decide (next_loc m = next_loc m)) as [_|Hne]; [|congruence]. simpl.
    unfold ConvertQueue.enqueue. simpl.
    repeat (destruct (_ && _) || destruct (negb _) || destruct (decide _); simpl);
      try congruence; split; reflexivity.
  - unfold convert_sync, ConvertQueue.create_job. unfold_M. simpl.
    destruct (decide (next_loc m = next_loc m)) as [_|Hne]; [|congruence]. simpl.
    match goal with
    | |- context [_attempt_with_retries runner ?l ?ms w] =>
        destruct (_attempt_with_retries runner l ms w) as [[[out|e] m1] w1] eqn:Hatt;
        apply attempt_with_retries_trace in Hatt as (tr & _ & _ & (Hheap & _) & _);
        specialize (Hheap l);
        pose proof (f_equal Job.outdir Hheap) as Hout;
        pose proof (f_equal Job.infile_path Hheap) as Hin;
        revert Hout Hin
    end; simpl; destruct (decide (next_loc m = next_loc m)) as [_|Hne];
      try congruence; simpl; intros Hout Hin; split; assumption.
  - intros Habs. unfold Py.join at 1. now rewrite Habs.
  - apply join_relative.
Qed.

Lemma upload_fails_outcome {W A : Type} (cfg : Config) (e : Exception)
  (uuid4 : string) (convert_to : option string) (m : Mem) (w : W) :
  let '(r, m', _) := @upload_fails W cfg A e uuid4 convert_to m w in
  r = Raise e /\
  m' = (ConvertQueue.create_job cfg uuid4 "" convert_to m).2.
Proof.
  unfold upload_fails. unfold_M.
  destruct (ConvertQueue.create_job cfg uuid4 "" convert_to m) as [l m0]. now split.
Qed.

(** X10.  Both conversion endpoints first try to save the upload under the
    join of the job's directory, [input] and the client's file name.  When
    that succeeds, the join becomes the job's [infile_path]: a name that
    starts with a slash replaces the whole path, so the input is then read
    from outside the job's directory; any other name is appended to the
    [input] directory of the job.  When saving raises, as it does for a
    name that cannot be opened as a file, the endpoint raises the same
    exception and [infile_path] stays empty: the job stays registered and
    [queued], it is neither admitted to the pending list nor scheduled,
    and no event happens. *)
Theorem upload_path_is_set_once_saved {W : Type}
  (runner : Job.t -> W -> result string * W) (cfg : Config) (saved : result unit)
  (uuid4 filename : string) (convert_to : option string) (m : Mem) (w : W) :
  let job := next_loc m in
  let input_dir := Py.join (Py.join (DATA_DIR cfg) uuid4) "input" in
  let outcome (x : result ConvertResponse * Mem * W) :=
    let '(r, m', _) := x in
    Job.outdir (heap m' job) = Py.join (DATA_DIR cfg) uuid4 /\
    match saved with
    | Ok _ => Job.infile_path (heap m' job) = Py.join input_dir filename
    | Raise e =>
        r = Raise e /\
        Job.infile_path (heap m' job) = "" /\
        ConvertQueue.get uuid4 m' = Some job /\
        Job.status (heap m' job) = JobStatus.queued /\
        pending m' = pending m /\ tasks m' = tasks m /\ log m' = log m
    end in
  outcome (convert_async_saving cfg saved uuid4 filename convert_to m w) /\
  outcome (convert_sync_saving runner cfg saved uuid4 filename convert_to m w) /\
  (Py.startswith "/" filename = true -> Py.join input_dir filename = filename) /\
  (Py.startswith "/" filename = false ->
   exists sep, Py.join input_dir filename = input_dir +:+ sep +:+ filename).
Proof.
  cbn zeta.
  destruct (stored_path_once_saved runner cfg uuid4 filename convert_to m w)
    as (Hasync & Hsync & Habs & Hrel).
  split; [|split; [|split; [exact Habs | exact Hrel]]].
  - unfold convert_async_saving. destruct saved as [[]|e].
    + destruct (convert_async cfg uuid4 filename convert_to m w) as [[r m'] w'].
      exact Hasync.
    + pose proof (@upload_fails_outcome W ConvertResponse cfg e uuid4 convert_to m w) as H.
      destruct (upload_fails cfg e uuid4 convert_to m w) as [[r m'] w'].
      destruct H as [-> ->]. unfold ConvertQueue.get. simpl.
      destruct (decide (next_loc m = next_loc m)) as [_|Hne]; [|congruence]. simpl.
      rewrite lookup_insert_eq. repeat split; reflexivity.
  - unfold convert_sync_saving. destruct saved as [[]|e].
    + destruct (convert_sync runner cfg uuid4 filename convert_to m w) as [[r m'] w'].
      exact Hsync.
    + pose proof (@upload_fails_outcome W ConvertResponse cfg e uuid4 convert_to m w) as H.
      destruct (upload_fails cfg e uuid4 convert_to m w) as [[r m'] w'].
      destruct H as [-> ->]. unfold ConvertQueue.get. simpl.
      destruct (decide (next_loc m = next_loc m)) as [_|Hne]; [|congruence]. simpl.
      rewrite lookup_insert_eq. repeat split; reflexivity.
Qed.

(** ** The query endpoints *)

(** X11.  [status] and [download] agree: both answer 404 exactly for an
    identifier that is not registered; [status] offers a download link
    exactly when [download] would serve a file, which is the job's
    [outfile_path] and requires the job to be [done]; and [status] reports
    a waiting position only for a [queued] job. *)
Theorem status_and_download_agree (job_id : string) (m : Mem) :
  (Api.status job_id m = Raise (HTTPException 404 "Job not found") <->
   ConvertQueue.get job_id m = None) /\
  (Api.download job_id m = Raise (HTTPException 404 "Job not found") <->
   ConvertQueue.get job_id m = None) /\
  (forall job,
      ConvertQueue.get job_id m = Some job ->
      exists resp,
        Api.status job_id m = Ok resp /\
        st_job_id resp = Job.id (heap m job) /\
        st_status resp = Job.status (heap m job) /\
        st_message resp = Job.message (heap m job) /\
        st_retries resp = Some (Job.retries (heap m job)) /\
        (st_waiting_count resp <> None -> st_status resp = JobStatus.queued) /\
        match Api.download job_id m with
        | Ok file =>
            st_download_url resp = Some ("/download/" +:+ Job.id (heap m job)) /\
            st_status resp = JobStatus.done /\
            Job.outfile_path (heap m job) = Some (file_path file) /\
            file_name file = Py.basename (file_path file)
        | Raise e =>
            st_download_url resp = None /\ e = HTTPException 400 "File not ready"
        end).
Proof.
  unfold Api.status, Api.download. split; [|split].
  - destruct (ConvertQueue.get job_id m); split; congruence.
  - destruct (ConvertQueue.get job_id m) as [l|]; [|split; congruence].
    split; [|discriminate].
    destruct (_ || _); [discriminate|]. destruct (Job.outfile_path _); discriminate.
  - intros job ->. eexists. split; [reflexivity|]. simpl.
    repeat (split; [reflexivity|]).
    split.
    + unfold JobStatus.eqb. destruct (Job.status (heap m job)); simpl; congruence.
    + unfold JobStatus.eqb. destruct (Job.status (heap m job)); simpl;
        try (split; reflexivity).
      destruct (Job.outfile_path (heap m job)) as [[|c path]|]; simpl;
        try (split; reflexivity).
      repeat split; reflexivity.
Qed.

(** ** After a cleanup *)

Lemma cleanup_job_jobs now job_id m :
  jobs (ConvertQueue.cleanup_job now job_id m) = jobs m.
Proof.
  unfold ConvertQueue.cleanup_job. destruct (jobs m !! job_id); [|reflexivity].
  now destruct (drop_pending_fields job_id
    (set_finished_at l
       (Some (float_or
          (Job.finished_at
             (heap (set_message l (Some "Cleaned up after retention period")
                (set_status l JobStatus.cleaned (set_outfile_path l None m))) l)) now))
       (set_message l (Some "Cleaned up after retention period")
          (set_status l JobStatus.cleaned (set_outfile_path l None m))))) as (-> & _).
Qed.

Lemma cleanup_job_pending now job_id job m :
  jobs m !! job_id = Some job ->
  without_first job_id (pending m) (pending (ConvertQueue.cleanup_job now job_id m)).
Proof.
  intros Hreg. unfold ConvertQueue.cleanup_job. rewrite Hreg.
  match goal with
  | |- without_first _ _ (pending (drop_pending _ ?m0)) =>
      change (pending m) with (pending m0); apply drop_pending_without_first
  end.
Qed.

(** X12.  After [cleanup_job] the record is still registered, but the file cannot
    be downloaded (400) and [status] shows [cleaned] with the retention
    message, no link and no waiting position; the identifier has left the
    pending list; and [finished_at] keeps the time it held, or takes the
    current time when it was unset or zero. *)
Theorem cleaned_job_is_kept_but_not_served (now : Q) (job_id : string) (job : loc) (m : Mem) :
  jobs m !! job_id = Some job ->
  let m' := ConvertQueue.cleanup_job now job_id m in
  ConvertQueue.get job_id m' = Some job /\
  Api.download job_id m' = Raise (HTTPException 400 "File not ready") /\
  (exists resp,
      Api.status job_id m' = Ok resp /\
      st_status resp = JobStatus.cleaned /\
      st_message resp = Some "Cleaned up after retention period" /\
      st_download_url resp = None /\
      st_waiting_count resp = None) /\
  without_first job_id (pending m) (pending m') /\
  Job.finished_at (heap m' job) =
    Some (match Job.finished_at (heap m job) with
          | Some t => if Qeq_bool t 0 then now else t
          | None => now
          end).
Proof.
  intros Hreg. cbn zeta.
  destruct (cleanup_job_registered now job_id job m Hreg) as (_ & Hs & Ho & Hf & _).
  cbn zeta in Hs, Ho, Hf.
  assert (ConvertQueue.get job_id (ConvertQueue.cleanup_job now job_id m) = Some job)
    as Hget by (unfold ConvertQueue.get; now rewrite cleanup_job_jobs).
  split; [exact Hget|].
  split; [unfold Api.download; rewrite Hget, Hs; reflexivity|].
  split.
  - unfold Api.status. rewrite Hget. eexists. split; [reflexivity|]. simpl.
    rewrite Hs. simpl. split; [reflexivity|]. split; [|split; reflexivity].
    unfold ConvertQueue.cleanup_job. rewrite Hreg. rewrite drop_pending_heap. simpl.
    destruct (decide (job = job)); [reflexivity | congruence].
  - split; [exact (cleanup_job_pending now job_id job m Hreg) | exact Hf].
Qed.

Lemma cleaned_job_is_kept_but_not_served_witness :
  let m' := ConvertQueue.cleanup_job 7 "job-1" one_job in
  ConvertQueue.get "job-1" m' = Some 0%nat /\
  Api.download "job-1" m' = Raise (HTTPException 400 "File not ready") /\
  (exists resp,
      Api.status "job-1" m' = Ok resp /\
      st_status resp = JobStatus.cleaned /\
      st_message resp = Some "Cleaned up after retention period" /\
      st_download_url resp = None /\
      st_waiting_count resp = None) /\
  without_first "job-1" (pending one_job) (pending m') /\
  Job.finished_at (heap m' 0%nat) = Some 7%Q.
Proof.
  exact (cleaned_job_is_kept_but_not_served 7 "job-1" 0%nat one_job eq_refl).
Defined.

(** X13.  A job that had no [finished_at] when [cleanup_job] ran at [cleaned_at]
    is evicted by a sweep run more than [JOB_RECORD_TTL_SECONDS] later, and
    kept by any earlier sweep: the retention window of such a job starts
    at its cleanup. *)
Theorem cleaned_job_is_evicted_after_the_window
  (cfg : Config) (cleaned_at now : Q) (job_id : string) (job : loc) (m : Mem) :
  jobs m !! job_id = Some job ->
  Job.finished_at (heap m job) = None ->
  0 < JOB_RECORD_TTL_SECONDS cfg ->
  let m' := ConvertQueue.evict_old_jobs cfg now (ConvertQueue.cleanup_job cleaned_at job_id m) in
  ((inject_Z (JOB_RECORD_TTL_SECONDS cfg) < now - cleaned_at)%Q ->
   ConvertQueue.get job_id m' = None) /\
  ((now - cleaned_at <= inject_Z (JOB_RECORD_TTL_SECONDS cfg))%Q ->
   ConvertQueue.get job_id m' = Some job).
Proof.
  intros Hreg Hnone Hpos. cbn zeta. unfold ConvertQueue.get.
  rewrite evict_lookup by exact Hpos. rewrite cleanup_job_jobs, Hreg.
  destruct (cleanup_job_registered cleaned_at job_id job m Hreg) as (_ & Hs & _ & Hf & _).
  cbn zeta in Hs, Hf. rewrite Hnone in Hf. simpl in Hf.
  unfold ConvertQueue.expired. rewrite Hs, Hf. simpl.
  split; intros Hcmp.
  - apply Qlt_bool_iff in Hcmp. now rewrite Hcmp.
  - destruct (Qlt_bool _ _) eqn:Hb; [|reflexivity].
    apply Qlt_bool_iff in Hb. exfalso. now apply (Qlt_not_le _ _ Hb).
Qed.

Lemma cleaned_job_is_evicted_after_the_window_witness :
  let m' :=
    ConvertQueue.evict_old_jobs default_config 90000
      (ConvertQueue.cleanup_job 7 "job-1" one_job) in
  ((inject_Z 86400 < 90000 - 7)%Q -> ConvertQueue.get "job-1" m' = None) /\
  ((90000 - 7 <= inject_Z 86400)%Q -> ConvertQueue.get "job-1" m' = Some 0%nat).
Proof.
  exact (cleaned_job_is_evicted_after_the_window default_config 7 90000 "job-1" 0%nat
           one_job eq_refl eq_refl eq_refl).
Defined.

(** ** The sweeps *)

Lemma set_jobs_same m : set_jobs (jobs m) m = m.
Proof. now destruct m. Qed.

Lemma evict_shape cfg now m :
  ConvertQueue.evict_old_jobs cfg now m =
  set_jobs (jobs (ConvertQueue.evict_old_jobs cfg now m)) m.
Proof.
  unfold ConvertQueue.evict_old_jobs.
  destruct (JOB_RECORD_TTL_SECONDS cfg <=? 0); [now rewrite set_jobs_same | reflexivity].
Qed.

(** X14.  A second eviction sweep at the same time removes nothing more. *)
Theorem evict_old_jobs_idempotent (cfg : Config) (now : Q) (m : Mem) :
  ConvertQueue.evict_old_jobs cfg now (ConvertQueue.evict_old_jobs cfg now m) =
  ConvertQueue.evict_old_jobs cfg now m.
Proof.
  destruct (Z.leb_spec (JOB_RECORD_TTL_SECONDS cfg) 0) as [Hle|Hpos].
  - unfold ConvertQueue.evict_old_jobs.
    destruct (Z.leb_spec (JOB_RECORD_TTL_SECONDS cfg) 0); [reflexivity | lia].
  - set (m1 := ConvertQueue.evict_old_jobs cfg now m).
    assert (jobs (ConvertQueue.evict_old_jobs cfg now m1) = jobs m1) as Hjobs.
    { apply map_eq. intros k. rewrite evict_lookup by exact Hpos.
      destruct (jobs m1 !! k) as [l|] eqn:Hk; [|reflexivity].
      subst m1. rewrite evict_lookup in Hk by exact Hpos.
      assert (heap (ConvertQueue.evict_old_jobs cfg now m) = heap m) as ->
        by apply evict_old_jobs_touches_no_job.
      destruct (jobs m !! k) as [l'|]; [|discriminate].
      destruct (ConvertQueue.expired cfg now (heap m l')) eqn:He; [discriminate|].
      injection Hk as <-. now rewrite He. }
    rewrite (evict_shape cfg now m1), Hjobs. apply set_jobs_same.
Qed.

(** X15.  A pass of the cleanup task over directories that are all either young
    or unknown to the registry cleans nothing: it only evicts, so stray
    directories are tolerated. *)
Theorem cleanup_cycle_skips_young_and_unknown {W : Type}
  (loop_time : W -> Q) (cfg : Config) (wall_now : Q) (entries : list (string * Q))
  (m : Mem) (w : W) :
  (forall e, e ∈ entries ->
     (wall_now - e.2 <= inject_Z (CLEANUP_AFTER_SECONDS cfg))%Q \/ jobs m !! e.1 = None) ->
  cleanup_cycle loop_time cfg wall_now entries m w =
  (Ok tt, ConvertQueue.evict_old_jobs cfg (loop_time w) m, w).
Proof.
  intros Hall. unfold cleanup_cycle. unfold_M. do 2 f_equal. f_equal.
  induction entries as [|e entries IH]; [reflexivity|]. simpl.
  assert ((if Qlt_bool (inject_Z (CLEANUP_AFTER_SECONDS cfg)) (wall_now - e.2)
           then ConvertQueue.cleanup_job (loop_time w) e.1 m else m) = m) as ->.
  { destruct (Hall e) as [Hyoung|Hunknown]; [left| |].
    - destruct (Qlt_bool _ _) eqn:Hb; [|reflexivity].
      apply Qlt_bool_iff in Hb. exfalso. now apply (Qlt_not_le _ _ Hb).
    - destruct (Qlt_bool _ _); [|reflexivity]. now apply cleanup_job_unregistered. }
  apply IH. intros e' He'. apply Hall. now right.
Qed.

Lemma cleanup_cycle_skips_young_and_unknown_witness :
  cleanup_cycle stub_clock default_config 4000 [("job-1", 3000%Q); ("stray", 0%Q)]
    one_job 0%nat =
  (Ok tt, ConvertQueue.evict_old_jobs default_config (stub_clock 0%nat) one_job, 0%nat).
Proof.
  apply (cleanup_cycle_skips_young_and_unknown stub_clock default_config 4000
           [("job-1", 3000%Q); ("stray", 0%Q)] one_job 0%nat).
  intros e He. apply list_elem_of_In in He. destruct He as [<-|[<-|[]]].
  - left. vm_compute. discriminate.
  - right. reflexivity.
Defined.

(** ** The process runner, on every path *)

Ltac find_removal :=
  first [ eexists [_; _; _; _]; (left + right); reflexivity
        | eexists [_; _; _; _; _; _]; left; reflexivity
        | eexists [_; _; _; _; _; _; _]; left; reflexivity
        | eexists [_; _; _; _; _; _; _; _]; left; reflexivity
        | eexists [_; _; _; _; _; _; _; _; _]; left; reflexivity ].

Section RunnerPaths.

Import Converter.

Variable CONVERT_TIMEOUT : Z.
Variables input_path output_dir : string.
Variable convert_to : option string.

(** Once the process is started, whatever it and the operating system do
    (success, a failing exit status, a timeout, a signal that cannot be
    sent), the runner removes the profile directory exactly once, after
    the process has been dealt with: only the listing of the output
    directory may follow; and it sends no signal to a process that exited
    before the deadline. *)
Lemma profile_directory_removed_after_start (os : OS) :
  let profile_dir := Py.join output_dir "lo_profile" in
  let actions :=
    (run_libreoffice_convert CONVERT_TIMEOUT input_path output_dir convert_to os).1 in
  removals actions = [Rmtree profile_dir] /\
  (exists before,
      actions = before ++ [Rmtree profile_dir] \/
      actions = before ++ [Rmtree profile_dir; Listdir output_dir]) /\
  (communicate os <> TimeoutError -> signals actions = []).
Proof.
  cbn zeta. unfold run_libreoffice_convert, on_timeout, signal_step.
  destruct (communicate os) as [rc out err|] eqn:Hc.
  - destruct (Z.eqb_spec rc 0) as [->|Hrc]; simpl.
    + destruct (_find_output_pdf _ _ _); simpl;
        (split; [reflexivity|]); (split; [|reflexivity]); find_removal.
    + rewrite (proj2 (Z.eqb_neq rc 0) Hrc). simpl.
      split; [reflexivity|]. split; [|reflexivity]. find_removal.
  - destruct (getpgid os) as [p|]; [destruct (truthy p && has_killpg os)|];
      destruct (send_SIGTERM os) as [[]|[]]; destruct (wait_after_SIGTERM os);
      destruct (send_SIGKILL os) as [[]|[]]; simpl;
      (split; [reflexivity|]); (split; [|congruence]); find_removal.
Qed.

(** X16.  The runner makes the profile directory before it starts the process.
    When the process cannot be started, the runner raises the error of the
    start and does not remove the directory, which is left behind.  When
    the process is started, whatever it and the operating system do
    (success, a failing exit status, a timeout, a signal that cannot be
    sent), the runner removes the profile directory exactly once, after
    the process has been dealt with: only the listing of the output
    directory may follow; and it sends no signal to a process that exited
    before the deadline. *)
Theorem profile_directory_is_removed_once_started (os : OS) (spawned : result unit) :
  let profile_dir := Py.join output_dir "lo_profile" in
  let '(actions, r) :=
    run_libreoffice_convert_spawning CONVERT_TIMEOUT input_path output_dir convert_to
      os spawned in
  match spawned with
  | Ok _ =>
      removals actions = [Rmtree profile_dir] /\
      (exists before,
          actions = before ++ [Rmtree profile_dir] \/
          actions = before ++ [Rmtree profile_dir; Listdir output_dir]) /\
      (communicate os <> TimeoutError -> signals actions = [])
  | Raise e =>
      r = Raise e /\
      actions =
        [ Makedirs output_dir; Makedirs profile_dir;
          Spawn (soffice_args os profile_dir input_path output_dir convert_to) ] /\
      removals actions = []
  end.
Proof.
  cbn zeta. unfold run_libreoffice_convert_spawning. destruct spawned as [[]|e].
  - pose proof (profile_directory_removed_after_start os) as H. cbn zeta in H.
    destruct (run_libreoffice_convert CONVERT_TIMEOUT input_path output_dir convert_to os)
      as [actions r].
    exact H.
  - simpl. repeat split; reflexivity.
Qed.

(** X17.  The runner returns a path only for a process that exited with status 0
    before the deadline, and the path is then the output directory joined
    with a name that is in the directory and passes the name test; in every
    other case it raises. *)
Theorem returned_path_is_a_listed_pdf (os : OS) :
  match (run_libreoffice_convert CONVERT_TIMEOUT input_path output_dir convert_to os).2 with
  | Ok path =>
      (exists stdout_text stderr_text, communicate os = Exited 0 stdout_text stderr_text) /\
      exists name,
        name ∈ listdir os /\ pdf_for input_path name = true /\
        path = Py.join output_dir name
  | Raise _ => True
  end.
Proof.
  destruct (run_libreoffice_convert CONVERT_TIMEOUT input_path output_dir convert_to os)
    as [actions [path|e]] eqn:Hrun; [|exact I]. simpl.
  unfold run_libreoffice_convert, on_timeout, signal_step in Hrun.
  destruct (communicate os) as [rc out err|] eqn:Hc.
  - simpl in Hrun. destruct (Z.eqb_spec rc 0) as [->|Hrc]; simpl in Hrun; [|discriminate].
    split; [eauto|]. unfold _find_output_pdf in Hrun.
    destruct (List.find _ (listdir os)) as [name|] eqn:Hfind; simpl in Hrun;
      [|discriminate].
    injection Hrun as _ <-. apply find_some in Hfind as [Hin Hm].
    exists name. split; [now apply list_elem_of_In|]. split; [exact Hm | reflexivity].
  - exfalso. revert Hrun.
    destruct (getpgid os) as [p|]; [destruct (truthy p && has_killpg os)|];
      destruct (send_SIGTERM os) as [[]|[]]; destruct (wait_after_SIGTERM os);
      destruct (send_SIGKILL os) as [[]|[]]; simpl; discriminate.
Qed.

(** X18.  A process that exits with a status other than 0 makes the runner raise
    [RuntimeError] with the status and the captured text (standard error,
    else standard output, else "Unknown error", stripped), without looking
    at the output directory, even when a PDF is there. *)
Theorem failing_exit_status_is_reported (os : OS) (returncode : Z)
  (stdout_text stderr_text : string) :
  communicate os = Exited returncode stdout_text stderr_text ->
  returncode <> 0 ->
  let '(actions, r) :=
    run_libreoffice_convert CONVERT_TIMEOUT input_path output_dir convert_to os in
  r = Raise (RuntimeError
               ("LibreOffice failed (code " +:+ pretty returncode +:+ "): " +:+
                Py.strip (str_or stderr_text (str_or stdout_text "Unknown error")))) /\
  Listdir output_dir ∉ actions.
Proof.
  intros Hc Hrc. unfold run_libreoffice_convert. rewrite Hc. simpl.
  rewrite (proj2 (Z.eqb_neq returncode 0) Hrc). simpl. split; [reflexivity|].
  intros Hin. repeat (apply elem_of_cons in Hin as [Hin|Hin]; [discriminate|]).
  inversion Hin.
Qed.

(** X19.  When a signal cannot be sent for a reason other than the process being
    gone, the error of the signal call is what the runner raises, in place
    of the timeout error, and the profile directory is removed all the
    same. *)
Theorem signal_error_replaces_the_timeout (os : OS) (e : Exception) :
  communicate os = TimeoutError ->
  send_SIGTERM os = Raise e ->
  (forall msg, e <> ProcessLookupError msg) ->
  let '(actions, r) :=
    run_libreoffice_convert CONVERT_TIMEOUT input_path output_dir convert_to os in
  r = Raise e /\ last actions = Some (Rmtree (Py.join output_dir "lo_profile")) /\
  Wait 5 ∉ actions.
Proof.
  intros Hc Hterm Hnot. unfold run_libreoffice_convert, on_timeout, signal_step.
  rewrite Hc, Hterm.
  destruct (getpgid os) as [p|]; [destruct (truthy p && has_killpg os)|];
    destruct e as [msg|msg|code detail|cls msg]; try (exfalso; now apply (Hnot msg));
    simpl; (split; [reflexivity|]); (split; [reflexivity|]);
    intros Hin; repeat (apply elem_of_cons in Hin as [Hin|Hin]; [discriminate|]);
    inversion Hin.
Qed.

End RunnerPaths.

Lemma failing_exit_status_is_reported_witness :
  let '(actions, r) :=
    Converter.run_libreoffice_convert 600 "/tmp/o2pdata/job-1/input/report.docx"
      "/tmp/o2pdata/job-1" None converter_fails in
  r = Raise (RuntimeError
               "LibreOffice failed (code 77): Error: source file could not be loaded") /\
  Converter.Listdir "/tmp/o2pdata/job-1" ∉ actions.
Proof.
  exact (failing_exit_status_is_reported 600 "/tmp/o2pdata/job-1/input/report.docx"
           "/tmp/o2pdata/job-1" None converter_fails 77 ""
           " Error: source file could not be loaded " eq_refl ltac:(discriminate)).
Defined.

Lemma signal_error_replaces_the_timeout_witness :
  let '(actions, r) :=
    Converter.run_libreoffice_convert 600 "/tmp/o2pdata/job-1/input/report.docx"
      "/tmp/o2pdata/job-1" None converter_untouchable in
  r = Raise (OtherError "PermissionError" "[Errno 1] Operation not permitted") /\
  last actions = Some (Converter.Rmtree "/tmp/o2pdata/job-1/lo_profile") /\
  Converter.Wait 5 ∉ actions.
Proof.
  exact (signal_error_replaces_the_timeout 600 "/tmp/o2pdata/job-1/input/report.docx"
           "/tmp/o2pdata/job-1" None converter_untouchable
           (OtherError "PermissionError" "[Errno 1] Operation not permitted")
           eq_refl eq_refl ltac:(discriminate)).
Defined.

(** ** The API key *)

(** X20.  The key in force is never empty: an unset or empty [APIKEY] gives
    ["changeme"], so the check cannot be switched off, and a request passes
    exactly when its [X-API-Key] header is the key; a request with no
    header is refused with 401. *)
Theorem api_key_is_always_required (environ : string -> option string)
  (x_api_key : option string) :
  Auth.API_KEY environ <> "" /\
  (environ "APIKEY" = None \/ environ "APIKEY" = Some "" ->
   Auth.API_KEY environ = "changeme") /\
  (Auth.require_api_key environ x_api_key = Ok tt <->
   x_api_key = Some (Auth.API_KEY environ)) /\
  (Auth.require_api_key environ x_api_key <> Ok tt ->
   Auth.require_api_key environ x_api_key = Raise (HTTPException 401 "Unauthorized")) /\
  Auth.require_api_key environ None = Raise (HTTPException 401 "Unauthorized").
Proof.
  assert (Auth.API_KEY environ <> "") as Hkey.
  { unfold Auth.API_KEY, Auth.getenv. destruct (environ "APIKEY") as [val|]; [|discriminate].
    destruct (String.eqb_spec val ""); [discriminate | assumption]. }
  assert (String.eqb (Auth.API_KEY environ) "" = false) as Hne
    by (now apply String.eqb_neq).
  split; [exact Hkey|]. split.
  { unfold Auth.API_KEY, Auth.getenv. intros [-> | ->]; reflexivity. }
  unfold Auth.require_api_key. rewrite Hne. cbn [negb andb].
  split; [|split].
  - destruct (decide (x_api_key = Some (Auth.API_KEY environ))) as [Heq|Hneq].
    + rewrite bool_decide_eq_true_2 by exact Heq. simpl. tauto.
    + rewrite bool_decide_eq_false_2 by exact Hneq. simpl. split; [discriminate | tauto].
  - destruct (bool_decide _); simpl; [congruence | reflexivity].
  - rewrite bool_decide_eq_false_2 by discriminate. reflexivity.
Qed.

(** ** From submission to the end of the job *)

Lemma enqueue_room cfg job m :
  MAX_QUEUE_SIZE cfg = 0 \/ Z.of_nat (length (pending m)) < MAX_QUEUE_SIZE cfg ->
  Job.id (heap m job) ∉ pending m ->
  ConvertQueue.enqueue cfg job m =
  set_status job JobStatus.queued (set_pending (pending m ++ [Job.id (heap m job)]) m).
Proof.
  intros Hroom Hfresh. unfold ConvertQueue.enqueue, truthy.
  assert ((negb (MAX_QUEUE_SIZE cfg =? 0) &&
           (MAX_QUEUE_SIZE cfg <=? Z.of_nat (length (pending m)))) = false) as ->.
  { destruct Hroom as [-> | Hlt]; [reflexivity|].
    rewrite andb_false_iff. right. now apply Z.leb_gt. }
  now rewrite bool_decide_eq_false_2 by exact Hfresh.
Qed.

Lemma list_remove_last (x : string) (l : list string) :
  x ∉ l -> list_remove x (l ++ [x]) = Some l.
Proof.
  induction l as [|y l IH]; simpl; intros Hnin.
  - now rewrite decide_True.
  - apply not_elem_of_cons in Hnin as [Hne Hnin].
    rewrite decide_False by congruence. now rewrite IH.
Qed.

Lemma run_job_summary {W : Type}
  (runner : Job.t -> W -> result string * W) (loop_time : W -> Q)
  (job : loc) (m : Mem) (w : W) (r : result unit) (m' : Mem) (w' : W) :
  run_job runner loop_time job m w = (r, m', w') ->
  r = Ok tt /\
  (Job.status (heap m' job) = JobStatus.done \/
   Job.status (heap m' job) = JobStatus.failed) /\
  Job.finished_at (heap m' job) = Some (loop_time w') /\
  pending m' = pending (drop_pending (Job.id (heap m job)) m) /\
  jobs m' = jobs m /\ tasks m' = tasks m.
Proof.
  unfold run_job. unfold_M. simpl heap.
  assert (pending (drop_pending (Job.id (heap m job)) (emit (EvAcquire job) m)) =
          pending (drop_pending (Job.id (heap m job)) m)) as Hp0.
  { unfold drop_pending. simpl. destruct (bool_decide _); [|reflexivity].
    now destruct (list_remove _ _). }
  destruct (drop_pending_fields (Job.id (heap m job)) (emit (EvAcquire job) m))
    as (Hj0 & _ & Ht0). simpl in Hj0, Ht0.
  match goal with
  | |- context [_attempt_with_retries runner job ?ms w] =>
      destruct (_attempt_with_retries runner job ms w) as [[[out|e] m1] w1] eqn:Hatt;
      apply attempt_with_retries_trace in Hatt as (tr & _ & _ & Hsame & _);
      destruct Hsame as (_ & _ & Hj & Hp & Ht); simpl in Hj, Hp, Ht
  end; simpl; intros [= <- <- <-]; simpl;
    (destruct (decide (job = job)) as [_|Hne]; [|congruence]); simpl;
    rewrite Hp, Hj, Ht, Hp0, Hj0, Ht0; auto 10.
Qed.

(** X21.  A job submitted to [convert_async] while the queue has room is answered
    as [queued] at the end of the pending list; when the event loop then
    starts its coroutine, the job leaves the pending list, which is again
    what it was before the submission, and ends [done] or [failed] with
    [finished_at] set, still registered under its identifier. *)
Theorem admitted_job_runs_to_the_end {W : Type}
  (runner : Job.t -> W -> result string * W) (loop_time : W -> Q) (cfg : Config)
  (uuid4 filename : string) (convert_to : option string) (m : Mem) (w : W) :
  tasks m = [] ->
  uuid4 ∉ pending m ->
  MAX_QUEUE_SIZE cfg = 0 \/ Z.of_nat (length (pending m)) < MAX_QUEUE_SIZE cfg ->
  let job := next_loc m in
  let '(resp, m1, w1) := convert_async cfg uuid4 filename convert_to m w in
  let '(r, m2, w2) := run_next_task runner loop_time m1 w1 in
  resp = Ok (mkConvertResponse uuid4 JobStatus.queued None) /\
  pending m1 = pending m ++ [uuid4] /\
  r = Ok tt /\
  tasks m2 = [] /\
  pending m2 = pending m /\
  (Job.status (heap m2 job) = JobStatus.done \/
   Job.status (heap m2 job) = JobStatus.failed) /\
  Job.finished_at (heap m2 job) = Some (loop_time w2) /\
  ConvertQueue.get uuid4 m2 = Some job.
Proof.
  intros Htasks Hfresh Hroom. cbn zeta.
  unfold convert_async, ConvertQueue.create_job. unfold_M. simpl.
  destruct (decide (next_loc m = next_loc m)) as [_|Hne]; [|congruence]. simpl.
  rewrite enqueue_room; simpl;
    try (destruct (decide (next_loc m = next_loc m)) as [_|Hne]; [|congruence]; simpl);
    try assumption.
  destruct (decide (next_loc m = next_loc m)) as [_|Hne]; [|congruence]. simpl.
  rewrite Htasks. unfold run_next_task. simpl.
  match goal with
  | |- context [run_job runner loop_time ?j ?ms w] =>
      destruct (run_job runner loop_time j ms w) as [[r m2] w2] eqn:Hrun;
      apply run_job_summary in Hrun as (Hr & Hst & Hfin & Hp & Hj & Ht);
      simpl in Hp, Hj, Ht
  end.
  destruct (decide (next_loc m = next_loc m)) as [_|Hne]; [|congruence]. simpl in Hp.
  unfold drop_pending in Hp. simpl in Hp.
  rewrite bool_decide_eq_true_2 in Hp by (apply elem_of_app; right; left).
  rewrite (list_remove_last _ _ Hfresh) in Hp. simpl in Hp.
  unfold ConvertQueue.get. rewrite Hj.
  repeat (split; [first [reflexivity | assumption]|]).
  apply lookup_insert_eq.
Qed.

Lemma admitted_job_runs_to_the_end_witness :
  let '(resp, m1, w1) :=
    convert_async default_config "job-2" "report.docx" None one_job
      (Main.mkWorld [converter_writes "report.pdf"] [] 5) in
  let '(r, m2, w2) := run_next_task (Main.runner default_config) Main.clock m1 w1 in
  resp = Ok (mkConvertResponse "job-2" JobStatus.queued None) /\
  pending m1 = pending one_job ++ ["job-2"] /\
  r = Ok tt /\
  tasks m2 = [] /\
  pending m2 = pending one_job /\
  (Job.status (heap m2 1%nat) = JobStatus.done \/
   Job.status (heap m2 1%nat) = JobStatus.failed) /\
  Job.finished_at (heap m2 1%nat) = Some (Main.clock w2) /\
  ConvertQueue.get "job-2" m2 = Some 1%nat.
Proof.
  exact (admitted_job_runs_to_the_end (Main.runner default_config) Main.clock default_config
           "job-2" "report.docx" None one_job
           (Main.mkWorld [converter_writes "report.pdf"] [] 5)
           eq_refl (not_elem_of_nil _) (or_intror eq_refl)).
Defined.

(** ** What the runner is given, and what the client is shown *)

Lemma attempt_loop_same_job {W : Type} (runner : Job.t -> W -> result string * W)
  (job : loc) (attempts : list Z) :
  forall last_err m w r m' w',
    attempt_loop runner job attempts last_err m w = (r, m', w') ->
    exists tr,
      log m' = log m ++ tr /\
      Forall (fun c : Job.t * result string =>
                c.1 = Job.set_retries (Job.retries c.1) (heap m job))
             (runner_calls tr).
Proof.
  induction attempts as [|attempt rest IH]; intros last_err m w r m' w' Hrun.
  - simpl in Hrun. unfold_M. injection Hrun as <- <- <-.
    exists []. rewrite app_nil_r. split; [reflexivity | constructor].
  - simpl in Hrun. unfold_M. unfold _run_once in Hrun.
    assert (heap (set_retries job attempt m) job = Job.set_retries attempt (heap m job))
      as Hseen.
    { unfold set_retries, emit. simpl. now destruct (decide (job = job)). }
    rewrite Hseen in Hrun.
    destruct (runner (Job.set_retries attempt (heap m job)) w) as [[out|e] w1].
    + injection Hrun as <- <- <-. eexists [_; _]. simpl.
      split; [now rewrite <- app_assoc|]. constructor; [reflexivity | constructor].
    + apply IH in Hrun as (tr & Hlog & Hall). simpl in Hlog.
      exists (EvRetries job (Job.retries (heap m job)) attempt ::
              EvRunner job (Job.set_retries attempt (heap m job)) (Raise e) :: EvSleep :: tr).
      split; [rewrite Hlog; now rewrite <- !app_assoc|].
      simpl. constructor; [reflexivity|].
      eapply Forall_impl; [exact Hall|]. intros [seen o] Hc. simpl in *.
      rewrite Hc. destruct (decide (job = job)) as [_|Hne]; [|congruence].
      now destruct (heap m job).
Qed.

(** X22.  Every attempt of the retry loop hands the runner the same job: the
    input path, directory, target format and all other fields are those the
    job had when the loop began, only [retries] differs from one attempt
    to the next. *)
Theorem every_attempt_sees_the_same_job {W : Type}
  (runner : Job.t -> W -> result string * W) (job : loc) (m : Mem) (w : W) :
  let '(_, m', _) := _attempt_with_retries runner job m w in
  exists tr,
    log m' = log m ++ tr /\
    Forall (fun c : Job.t * result string =>
              c.1 = Job.set_retries (Job.retries c.1) (heap m job))
           (runner_calls tr).
Proof.
  destruct (_attempt_with_retries runner job m w) as [[r m'] w'] eqn:Hrun.
  unfold _attempt_with_retries in Hrun. unfold_M.
  exact (attempt_loop_same_job runner job _ _ _ _ _ _ _ Hrun).
Qed.

Lemma run_job_fields {W : Type}
  (runner : Job.t -> W -> result string * W) (loop_time : W -> Q)
  (job : loc) (m : Mem) (w : W) :
  let started :=
    set_status job JobStatus.running
      (drop_pending (Job.id (heap m job)) (emit (EvAcquire job) m)) in
  let '(attempted, _, _) := _attempt_with_retries runner job started w in
  let '(_, m', _) := run_job runner loop_time job m w in
  Job.id (heap m' job) = Job.id (heap m job) /\
  match attempted with
  | Ok out =>
      Job.status (heap m' job) = JobStatus.done /\
      Job.outfile_path (heap m' job) = Some out /\
      Job.message (heap m' job) = Job.message (heap m job)
  | Raise e =>
      Job.status (heap m' job) = JobStatus.failed /\
      Job.message (heap m' job) = Some (str e) /\
      Job.outfile_path (heap m' job) = Job.outfile_path (heap m job)
  end.
Proof.
  cbn zeta. unfold run_job. unfold_M. simpl heap.
  match goal with
  | |- context [_attempt_with_retries runner job ?ms w] =>
      destruct (_attempt_with_retries runner job ms w) as [[[out|e] m1] w1] eqn:Hatt;
      apply attempt_with_retries_trace in Hatt as (tr & _ & _ & Hsame & _);
      apply (same_but_retries_fields _ _ job) in Hsame as (Hid & _ & Hmsg & Hout & _ & _);
      revert Hid Hmsg Hout
  end; simpl; rewrite drop_pending_heap; simpl;
    (destruct (decide (job = job)) as [_|Hne]; [|congruence]); simpl;
    intros Hid Hmsg Hout; auto.
Qed.

(** X23.  What a client sees once [run_job] has run for a registered job: after a
    success with a non-empty path, [download] serves that path under its
    base name and [status] shows [done] with the link; after a failure,
    [download] answers 400 and [status] shows [failed] with the text of the
    last error and no link. *)
Theorem client_sees_the_outcome {W : Type}
  (runner : Job.t -> W -> result string * W) (loop_time : W -> Q)
  (job_id : string) (job : loc) (m : Mem) (w : W) :
  jobs m !! job_id = Some job ->
  let started :=
    set_status job JobStatus.running
      (drop_pending (Job.id (heap m job)) (emit (EvAcquire job) m)) in
  let '(attempted, _, _) := _attempt_with_retries runner job started w in
  let '(_, m', _) := run_job runner loop_time job m w in
  match attempted with
  | Ok out =>
      out <> "" ->
      Api.download job_id m' = Ok (mkFileResponse out (Py.basename out)) /\
      exists resp,
        Api.status job_id m' = Ok resp /\ st_status resp = JobStatus.done /\
        st_download_url resp = Some ("/download/" +:+ Job.id (heap m job))
  | Raise e =>
      Api.download job_id m' = Raise (HTTPException 400 "File not ready") /\
      exists resp,
        Api.status job_id m' = Ok resp /\ st_status resp = JobStatus.failed /\
        st_message resp = Some (str e) /\ st_download_url resp = None
  end.
Proof.
  intros Hreg. cbn zeta.
  pose proof (run_job_fields runner loop_time job m w) as Hfields. cbn zeta in Hfields.
  destruct (_attempt_with_retries runner job _ w) as [[attempted m1] w1].
  destruct (run_job runner loop_time job m w) as [[r m'] w'] eqn:Hrun.
  apply run_job_summary in Hrun as (_ & _ & _ & _ & Hjobs & _).
  destruct Hfields as [Hid Hfields].
  unfold Api.download, Api.status, ConvertQueue.get. rewrite Hjobs, Hreg. simpl.
  destruct attempted as [out|e].
  - destruct Hfields as (-> & -> & _). intros Hne.
    destruct out as [|c out]; [congruence|]. simpl.
    split; [reflexivity|]. eexists. split; [reflexivity|]. simpl. rewrite Hid. now split.
  - destruct Hfields as (-> & -> & _). simpl.
    split; [reflexivity|]. eexists. split; [reflexivity|]. simpl. now repeat split.
Qed.

Lemma client_sees_the_outcome_witness :
  let '(_, m', _) :=
    run_job (Main.runner default_config) Main.clock 0%nat one_job
      (Main.mkWorld [converter_writes "report.pdf"] [] 5) in
  Api.download "job-1" m' =
    Ok (mkFileResponse "/tmp/o2pdata/job-1/report.pdf"
          (Py.basename "/tmp/o2pdata/job-1/report.pdf")) /\
  exists resp,
    Api.status "job-1" m' = Ok resp /\ st_status resp = JobStatus.done /\
    st_download_url resp = Some ("/download/" +:+ "job-1").
Proof.
  exact (client_sees_the_outcome (Main.runner default_config) Main.clock "job-1" 0%nat
           one_job (Main.mkWorld [converter_writes "report.pdf"] [] 5) eq_refl
           ltac:(discriminate)).
Defined.

(** ** Every status assignment of every operation *)















